(** * Verification of [deploy/python/predict.py]

    A shallow embedding of the text-classification inference script
    [examples/text_classification/pretrained_models/deploy/python/predict.py]
    and the properties of its batching, padding, decoding and printing.

    Python values are embedded as follows: [int] as [Z], [str] as [string],
    a list as [list], a [dict] as a [gmap] (as its entries in insertion
    order where that order is read), a raised exception as the left
    injection of a sum.  The inference engine is a state with two input
    slots and one output slot; every call made on it is recorded in a trace. *)

From Stdlib Require Import ZArith QArith Lia.
From stdpp Require Import base option list gmap strings.

Local Open Scope Z_scope.

(** ** Python primitives used by the script *)

Module Py.

(** A key of a dictionary: the script has [str] keys and [int] keys. *)
Inductive key :=
| KStr (s : string)
| KInt (z : Z).

(** The exceptions that the modelled code can raise. *)
Inductive exn :=
| ValueError
| KeyError (k : key)
| UnboundLocalError (name : string)
| IndexError
| SystemExit (code : Z).

Definition result (A : Type) : Type := exn + A.

Global Instance result_ret : MRet result := fun A a => inr a.
Global Instance result_bind : MBind result := fun A B f r =>
  match r with
  | inl e => inl e
  | inr a => f a
  end.
Global Instance result_throw : MThrow exn result := fun A e => inl e.

(** [len(range(start, stop, step))]. *)
Definition range_length (start stop step : Z) : Z :=
  if 0 <? step then
    if start <? stop then (stop - start - 1) / step + 1 else 0
  else
    if stop <? start then (start - stop - 1) / (- step) + 1 else 0.

(** [list(range(start, stop, step))]; a zero step raises [ValueError]. *)
Definition range (start stop step : Z) : result (list Z) :=
  if step =? 0 then inl ValueError
  else inr ((fun i : nat => start + Z.of_nat i * step)
              <$> seq 0 (Z.to_nat (range_length start stop step))).

(** Index adjustment of a slice bound against a sequence of length [n]. *)
Definition adjust_index (n i : Z) : Z :=
  if i <? 0 then (if i + n <? 0 then 0 else i + n)
  else (if n <=? i then n else i).

(** [l[lo:hi]]. *)
Definition slice {A} (l : list A) (lo hi : Z) : list A :=
  let n := Z.of_nat (length l) in
  let lo' := adjust_index n lo in
  let hi' := adjust_index n hi in
  take (Z.to_nat (hi' - lo')) (drop (Z.to_nat lo') l).

(** A dictionary whose order of insertion is observed (the script calls
    [values()] on it): the entries in insertion order, keys distinct. *)
Definition dict (V : Type) : Type := list (Z * V).

Fixpoint dict_lookup {V} (d : dict V) (k : Z) : option V :=
  match d with
  | [] => None
  | (k', v) :: d' => if k' =? k then Some v else dict_lookup d' k
  end.

(** [d[k]] on such a dictionary. *)
Definition getitem_int {V} (d : dict V) (k : Z) : result V :=
  match dict_lookup d k with
  | Some v => inr v
  | None => inl (KeyError (KInt k))
  end.

(** [d.values()]. *)
Definition values {V} (d : dict V) : list V := d.*2.

(** [d[k]] on a dictionary with [str] keys. *)
Definition getitem_str {V} (d : gmap string V) (k : string) : result V :=
  match d !! k with
  | Some v => inr v
  | None => inl (KeyError (KStr k))
  end.

(** Reading a local variable of a function frame: a local that has not
    been assigned yet raises [UnboundLocalError]. *)
Definition read_local {A} (name : string) (v : option A) : result A :=
  match v with
  | Some a => inr a
  | None => inl (UnboundLocalError name)
  end.

End Py.

(** ** Batching (lines 150-153 of [Predictor.predict]) *)

(** [[examples[idx:idx + batch_size]
      for idx in range(0, len(examples), batch_size)]] *)
Definition batches {A} (examples : list A) (batch_size : Z)
  : Py.result (list (list A)) :=
  idxs ← Py.range 0 (Z.of_nat (length examples)) batch_size;
  mret ((fun idx => Py.slice examples idx (idx + batch_size)) <$> idxs).

(** The [i]-th window of width [k] of a list: what the comprehension
    above yields at its [i]-th index for a positive [batch_size]. *)
Definition chunk_at {A} (l : list A) (k i : nat) : list A :=
  take k (drop (i * k) l).


(** ** Example encoding ([convert_example], lines 37-89) *)

(** The dictionary returned by a tokenizer call, restricted to the two
    entries the script reads. *)
Record Encoding := {
  input_ids : list Z;
  token_type_ids : list Z;
}.

(** The tokenizer as the script uses it: the call
    [tokenizer(text=..., max_seq_len=...)] and the attribute
    [pad_token_id]. *)
Record Tokenizer := {
  tokenize : string → Z → Encoding;
  pad_token_id : Z;
}.

(** [for x in l: body], threading the variables the body assigns. *)
Fixpoint for_in `{MBind M, MRet M} {A S}
    (l : list A) (body : S → A → M S) (s : S) : M S :=
  match l with
  | [] => mret s
  | x :: l' => s' ← body s x; for_in l' body s'
  end.

(** [enumerate(l)]. *)
Definition enumerate {A} (l : list A) : list (Z * A) :=
  imap (fun i x => (Z.of_nat i, x)) l.

(** The label map built by lines 81-83:
    [for (i, l) in enumerate(label_list): label_map[l] = i]. *)
Definition build_label_map (label_list : list string) : gmap string Z :=
  foldl (fun label_map '(i, l) => <[l := i]> label_map) ∅
        (enumerate label_list).

(** [convert_example].  The function returns a pair when [is_test] holds
    and a triple otherwise; the third component is [None] for the pair.
    The name [label] is a local of the function (line 85 assigns it) and
    no statement binds it before line 85 reads it. *)
Definition convert_example (example : string) (tokenizer : Tokenizer)
    (label_list : list string) (max_seq_length : Z) (is_test : bool)
  : Py.result (list Z * list Z * option Z) :=
  let text := example in
  let encoded_inputs := tokenize tokenizer text max_seq_length in
  let input_ids := input_ids encoded_inputs in
  let segment_ids := token_type_ids encoded_inputs in
  if negb is_test then
    let label_map := build_label_map label_list in
    let label : option string := None in
    key ← Py.read_local "label" label;
    label ← Py.getitem_str label_map key;
    mret (input_ids, segment_ids, Some label)
  else
    mret (input_ids, segment_ids, None).

(** ** Padding ([batchify_fn], lines 144-147) *)

Definition tensor : Type := list (list Z).
Definition matrix : Type := list (list Q).

(** Modelled from the spec: [paddlenlp.data.Pad] is not among the
    sources.  The spec has it pad every sequence of a chunk with the pad
    value up to the chunk's longest sequence, the original tokens
    keeping their positions. *)
Definition Pad (pad_val : Z) (data : list (list Z)) : tensor :=
  let max_size := max_list (length <$> data) in
  (fun arr => arr ++ replicate (max_size - length arr) pad_val) <$> data.

(** Modelled from the spec: [paddlenlp.data.Tuple] is not among the
    sources.  With two functions it applies the first to the first
    fields of the samples and the second to their second fields,
    independently. *)
Definition Tuple {A B C D} (f : list A → C) (g : list B → D)
    (samples : list (A * B)) : C * D :=
  (f (samples.*1), g (samples.*2)).

Definition batchify_fn (tokenizer : Tokenizer)
    (samples : list (list Z * list Z)) : tensor * tensor :=
  Tuple (Pad (pad_token_id tokenizer))   (* input *)
        (Pad (pad_token_id tokenizer))   (* segment *)
        samples.

(** ** Decoding (lines 162-165) *)

(** [numpy.argmax] on one row of finite values: a left-to-right scan
    that keeps the position of the running maximum and moves only on a
    strictly greater value.  The empty row raises [ValueError].  Finite
    floating-point values are rationals and compare as such. *)
Fixpoint argmax_scan (mi : nat) (mv : Q) (i : nat) (row : list Q) : nat :=
  match row with
  | [] => mi
  | x :: row' =>
      if Qle_bool x mv then argmax_scan mi mv (S i) row'
      else argmax_scan i x (S i) row'
  end.

Definition argmax (row : list Q) : Py.result nat :=
  match row with
  | [] => inl Py.ValueError
  | x :: row' => inr (argmax_scan 0 x 1 row')
  end.

(** ** The inference engine and the console *)

Inductive device_setting :=
| DeviceUnset
| UseGpu (memory_pool_mb device_id : Z)
| GpuDisabled
| UseXpu (l3_workspace_size : Z).

Record Config := {
  cfg_model_file : string;
  cfg_params_file : string;
  cfg_device : device_setting;
  cfg_use_feed_fetch_ops : bool;
}.

Inductive event :=
| CreatePredictor (config : Config)
| CopyFromCpu (handle : nat) (t : tensor)
| Run
| CopyToCpu
| Print (line : string).

(** The state outside the script: the tensors held by the two input
    handles and by the output handle, and the calls made so far. *)
Record world := {
  in0 : tensor;
  in1 : tensor;
  out : matrix;
  trace : list event;
}.

Definition M (A : Type) : Type := world → Py.result A * world.

Global Instance M_ret : MRet M := fun A a w => (inr a, w).
Global Instance M_bind : MBind M := fun A B f m w =>
  match m w with
  | (inl e, w') => (inl e, w')
  | (inr a, w') => f a w'
  end.

Definition lift {A} (r : Py.result A) : M A := fun w => (r, w).

Definition log (e : event) : M unit := fun w =>
  (inr (), {| in0 := in0 w; in1 := in1 w; out := out w;
              trace := trace w ++ [e] |}).

Definition copy_from_cpu (handle : nat) (t : tensor) : M unit := fun w =>
  log (CopyFromCpu handle t)
      (match handle with
       | O => {| in0 := t; in1 := in1 w; out := out w; trace := trace w |}
       | S _ => {| in0 := in0 w; in1 := t; out := out w; trace := trace w |}
       end).

Definition run (net : tensor → tensor → matrix) : M unit := fun w =>
  log Run {| in0 := in0 w; in1 := in1 w; out := net (in0 w) (in1 w);
             trace := trace w |}.

Definition copy_to_cpu : M matrix := fun w =>
  match log CopyToCpu w with
  | (_, w') => (inr (out w), w')
  end.

Definition print (line : string) : M unit := log (Print line).

(** What the script takes from outside the repository. *)
Record Env := {
  (** [scipy.special.softmax] on one row *)
  softmax : list Q → list Q;
  (** the network built by [paddle.inference.create_predictor] *)
  create_predictor : Config → tensor → tensor → matrix;
  (** [int] as the argument parser's [type=int] *)
  py_int : string → option Z;
  (** [ErnieTinyTokenizer.from_pretrained] *)
  from_pretrained : string → Tokenizer;
}.

(** ** The predictor ([class Predictor], lines 92-167) *)

Record Predictor := {
  self_max_seq_length : Z;
  self_predictor : tensor → tensor → matrix;
}.

(** [Predictor.__init__], lines 93-116. *)
(** Lines 96-107: the configuration handed to the engine. *)
Definition make_config (model_file params_file device : string) : Config :=
  {| cfg_model_file := model_file; cfg_params_file := params_file;
     cfg_device :=
       if String.eqb device "gpu" then UseGpu 100 0
       else if String.eqb device "cpu" then GpuDisabled
       else if String.eqb device "xpu" then UseXpu 100
       else DeviceUnset;
     cfg_use_feed_fetch_ops := false |}.

Definition Predictor_init (E : Env) (model_file params_file device : string)
    (max_seq_length : Z) : M Predictor :=
  let config := make_config model_file params_file device in
  log (CreatePredictor config);;
  mret {| self_max_seq_length := max_seq_length;
          self_predictor := create_predictor E config |}.

(** Lines 134-142: the encoding of every text. *)
Definition encode_examples (self : Predictor) (data : list string)
    (tokenizer : Tokenizer) (label_map : Py.dict string)
  : Py.result (list (list Z * list Z)) :=
  for_in data (fun examples text =>
    r ← convert_example text tokenizer (Py.values label_map)
          (self_max_seq_length self) true;
    match r with
    | (input_ids, segment_ids, None) =>
        mret (examples ++ [(input_ids, segment_ids)])
    | (_, _, Some _) => mthrow Py.ValueError
    end) [].

(** Lines 157-166: the body of the loop over the batches. *)
Definition predict_batch (E : Env) (self : Predictor) (tokenizer : Tokenizer)
    (label_map : Py.dict string)
    (results : list string) (batch : list (list Z * list Z))
  : M (list string) :=
  let '(input_ids, segment_ids) := batchify_fn tokenizer batch in
  copy_from_cpu 0 input_ids;;
  copy_from_cpu 1 segment_ids;;
  run (self_predictor self);;
  logits ← copy_to_cpu;
  let probs := softmax E <$> logits in
  idx ← lift (mapM argmax probs);
  labels ← lift (mapM (fun i => Py.getitem_int label_map (Z.of_nat i)) idx);
  mret (results ++ labels).

(** [Predictor.predict], lines 118-167. *)
Definition predict (E : Env) (self : Predictor) (data : list string)
    (tokenizer : Tokenizer) (label_map : Py.dict string) (batch_size : Z)
  : M (list string) :=
  examples ← lift (encode_examples self data tokenizer label_map);
  batches ← lift (batches examples batch_size);
  for_in batches (predict_batch E self tokenizer label_map) [].

(** ** The command line (lines 25-33) *)

(** The value given on the command line for each flag, if any, for a
    command line that is made of these five flags, each at most once;
    other arguments and the help flag are not represented. *)
Record Argv := {
  opt_model_file : option string;
  opt_params_file : option string;
  opt_max_seq_length : option string;
  opt_batch_size : option string;
  opt_device : option string;
}.

Record Namespace := {
  args_model_file : string;
  args_params_file : string;
  args_max_seq_length : Z;
  args_batch_size : Z;
  args_device : string;
}.

(** A usage error of the parser ends the process with status 2. *)
Definition usage_error {A} : Py.result A := inl (Py.SystemExit 2).

Definition required (v : option string) : Py.result string :=
  match v with
  | Some s => inr s
  | None => usage_error
  end.

Definition typed_int (E : Env) (default : Z) (v : option string)
  : Py.result Z :=
  match v with
  | None => inr default
  | Some s =>
      match py_int E s with
      | Some z => inr z
      | None => usage_error
      end
  end.

Definition device_choices : list string := ["cpu"; "gpu"; "xpu"].

Definition with_choices (choices : list string) (default : string)
    (v : option string) : Py.result string :=
  match v with
  | None => inr default
  | Some s => if bool_decide (s ∈ choices) then inr s else usage_error
  end.

Definition parse_args (E : Env) (argv : Argv) : Py.result Namespace :=
  model_file ← required (opt_model_file argv);
  params_file ← required (opt_params_file argv);
  max_seq_length ← typed_int E 128 (opt_max_seq_length argv);
  batch_size ← typed_int E 2 (opt_batch_size argv);
  device ← with_choices device_choices "gpu" (opt_device argv);
  mret {| args_model_file := model_file; args_params_file := params_file;
          args_max_seq_length := max_seq_length;
          args_batch_size := batch_size; args_device := device |}.

(** ** The script (lines 170-189) *)

Definition data : list string := [
  "??????????????????????????????????????????????????????????????????????????????";
  "?????????????????????????????????????????????????????????????????????????????????????????????????????????????????????";
  "????????????????????????????????????????????????????????????????????????????????????????????????????????????????????????????????????????????????"
].

Definition label_map : Py.dict string :=
  [(0, "negative"); (1, "positive")].

(** The horizontal tab, which the escape of line 189 denotes. *)
Definition tab : Ascii.ascii := Ascii.ascii_of_nat 9.

(** ['Data: {} \t Label: {}'.format(text, label)]. *)
Definition format_line (text label : string) : string :=
  "Data: " +:+ text +:+ " " +:+ String tab " Label: " +:+ label.

(** [results[idx]]. *)
Definition getitem_list {A} (l : list A) (idx : Z) : Py.result A :=
  let n := Z.of_nat (length l) in
  let i := if idx <? 0 then idx + n else idx in
  if (i <? 0) || (n <=? i) then inl Py.IndexError
  else match l !! Z.to_nat i with
       | Some x => inr x
       | None => inl Py.IndexError
       end.

(** Lines 188-189. *)
Definition print_results (data results : list string) : M unit :=
  for_in (enumerate data) (fun _ '(idx, text) =>
    label ← lift (getitem_list results idx);
    print (format_line text label)) ().

Definition script (E : Env) (argv : Argv) : M unit :=
  args ← lift (parse_args E argv);
  predictor ← Predictor_init E (args_model_file args) (args_params_file args)
                (args_device args) (args_max_seq_length args);
  let tokenizer := from_pretrained E "ernie-tiny" in
  results ← predict E predictor data tokenizer label_map
              (args_batch_size args);
  print_results data results.

(** The console lines of a trace. *)
Definition stdout (t : list event) : list string :=
  omap (fun e => match e with Print line => Some line | _ => None end) t.

(** The calls on the engine in a trace. *)
Definition is_engine_call (e : event) : bool :=
  match e with
  | CopyFromCpu _ _ | Run | CopyToCpu => true
  | _ => false
  end.

(** ** Notions used to state the properties *)

(** [padded] is [raw] padded on the right with [pad] to the common
    length [len]: row by row, the raw tokens keep their positions and
    every further position below [len] holds [pad]. *)
Definition padded_to (pad : Z) (len : nat) (raw padded : list (list Z))
  : Prop :=
  length padded = length raw
  /\ forall (i : nat) (s : list Z), raw !! i = Some s ->
       exists p : list Z,
         padded !! i = Some p
         /\ length p = len
         /\ (forall j : nat, (j < length s)%nat -> p !! j = s !! j)
         /\ (forall j : nat, (length s <= j < len)%nat -> p !! j = Some pad).

(** [len] is the length of a longest sequence of [raw]. *)
Definition longest (len : nat) (raw : list (list Z)) : Prop :=
  (forall s, s ∈ raw -> (length s <= len)%nat)
  /\ (raw <> [] -> exists s, s ∈ raw /\ length s = len).

(** The scores that the engine returns for a batch. *)
Definition batch_logits (self : Predictor) (tokenizer : Tokenizer)
    (batch : list (list Z * list Z)) : matrix :=
  self_predictor self (batchify_fn tokenizer batch).1
                      (batchify_fn tokenizer batch).2.

(** The label decoded from one row of scores. *)
Definition row_label (E : Env) (label_map : Py.dict string) (row : list Q)
  : Py.result string :=
  i ← argmax (softmax E row);
  Py.getitem_int label_map (Z.of_nat i).

(** The engine state and the trace after one batch has been run. *)
Definition after_batch (self : Predictor) (tokenizer : Tokenizer)
    (batch : list (list Z * list Z)) (w : world) : world :=
  {| in0 := (batchify_fn tokenizer batch).1;
     in1 := (batchify_fn tokenizer batch).2;
     out := batch_logits self tokenizer batch;
     trace := trace w ++
       [CopyFromCpu 0 (batchify_fn tokenizer batch).1;
        CopyFromCpu 1 (batchify_fn tokenizer batch).2;
        Run; CopyToCpu] |}.

(** The pair that the prediction path keeps for a text. *)
Definition encoded (self : Predictor) (tokenizer : Tokenizer)
    (text : string) : list Z * list Z :=
  let e := tokenize tokenizer text (self_max_seq_length self) in
  (input_ids e, token_type_ids e).

(** Lines 162-165 on the scores of one batch. *)
Definition decode (E : Env) (label_map : Py.dict string) (logits : matrix)
  : Py.result (list string) :=
  idx ← mapM argmax (softmax E <$> logits);
  mapM (fun i => Py.getitem_int label_map (Z.of_nat i)) idx.

(** The errors that decoding can raise. *)
Definition decode_error (e : Py.exn) : Prop :=
  e = Py.ValueError \/ exists i : Z, e = Py.KeyError (Py.KInt i).

(** The engine returns one row of scores per row of its first input. *)
Definition row_per_example (self : Predictor) : Prop :=
  forall ids segs : tensor,
    length (self_predictor self ids segs) = length ids.

(** Every row of scores that the engine returns has an arg-max, and the
    label map has an entry for it. *)
Definition labels_cover (E : Env) (self : Predictor)
    (label_map : Py.dict string) : Prop :=
  forall (ids segs : tensor) (row : list Q),
    row ∈ self_predictor self ids segs ->
    exists lbl : string, row_label E label_map row = inr lbl.

(** The labels decoded for a batch, none when decoding fails. *)
Definition batch_labels (E : Env) (self : Predictor) (tokenizer : Tokenizer)
    (label_map : Py.dict string) (batch : list (list Z * list Z))
  : list string :=
  match decode E label_map (batch_logits self tokenizer batch) with
  | inl _ => []
  | inr labels => labels
  end.

(** The predictor that line 172 builds from the parsed command line. *)
Definition script_predictor (E : Env) (args : Namespace) : Predictor :=
  {| self_max_seq_length := args_max_seq_length args;
     self_predictor :=
       create_predictor E
         (make_config (args_model_file args) (args_params_file args)
            (args_device args)) |}.

(** Whatever the configuration, the network that the environment builds
    returns one row of scores per example, and the label map covers the
    indices decoded from them.  This asks more than any one run needs;
    it only appears where an environment is shown to be beyond
    reproach. *)
Definition engine_ok (E : Env) (label_map : Py.dict string) : Prop :=
  forall (config : Config) (max_seq_length : Z),
    let self := {| self_max_seq_length := max_seq_length;
                   self_predictor := create_predictor E config |} in
    row_per_example self /\ labels_cover E self label_map.

(** The calls made on the engine for one batch, in order. *)
Definition batch_events (self : Predictor) (tokenizer : Tokenizer)
    (batch : list (list Z * list Z)) : list event :=
  [CopyFromCpu 0 (batchify_fn tokenizer batch).1;
   CopyFromCpu 1 (batchify_fn tokenizer batch).2;
   Run; CopyToCpu].

Definition is_run (e : event) : bool :=
  match e with
  | Run => true
  | _ => false
  end.

Definition is_create_predictor (e : event) : bool :=
  match e with
  | CreatePredictor _ => true
  | _ => false
  end.

(** The batches that [predict] forms for a batch size of at least 1:
    the windows of that width over the encoded texts. *)
Definition example_batches (self : Predictor) (tokenizer : Tokenizer)
    (data : list string) (k : Z) : list (list (list Z * list Z)) :=
  chunk_at (encoded self tokenizer <$> data) (Z.to_nat k)
    <$> seq 0 (Z.to_nat ((Z.of_nat (length data) + k - 1) / k)).

(** ** Concrete collaborators for the examples *)

(** A tokenizer that maps a text of [n] characters to [n + 2] tokens. *)
Definition toy_tokenizer : Tokenizer :=
  {| tokenize := fun text _ =>
       {| input_ids := 1 :: replicate (String.length text) 5 ++ [2];
          token_type_ids := replicate (String.length text + 2) 0 |};
     pad_token_id := 0 |}.

(** A two-class network: per row, the number of tokens other than the
    pad token against the constant 4. *)
Definition toy_net (ids segs : tensor) : matrix :=
  (fun row : list Z =>
     [inject_Z (Z.of_nat (length (filter (fun t => t <> 0) row))); 4 # 1])
  <$> ids.

Fixpoint digits (s : string) (acc : Z) : option Z :=
  match s with
  | EmptyString => Some acc
  | String c s' =>
      let n := Z.of_nat (Ascii.nat_of_ascii c) in
      if (48 <=? n) && (n <=? 57) then digits s' (10 * acc + (n - 48))
      else None
  end.

(** The plain decimal numerals, a part of what [int] accepts. *)
Definition decimal (s : string) : option Z :=
  match s with
  | EmptyString => None
  | String c s' =>
      if Z.of_nat (Ascii.nat_of_ascii c) =? 45 then
        match s' with
        | EmptyString => None
        | _ => Z.opp <$> digits s' 0
        end
      else digits s 0
  end.

(** A normalisation that keeps the order of the scores of a row. *)
Definition toy_softmax (row : list Q) : list Q := row.

Definition toy_env : Env :=
  {| softmax := toy_softmax;
     create_predictor := fun _ => toy_net;
     py_int := decimal;
     from_pretrained := fun _ => toy_tokenizer |}.

Definition toy_predictor : Predictor :=
  {| self_max_seq_length := 128; self_predictor := toy_net |}.

Definition world0 : world :=
  {| in0 := []; in1 := []; out := []; trace := [] |}.

(** * Properties *)

(** ** Batching *)

(** *** Arithmetic of the chunk count *)

Lemma range_length_pos (n k : Z) :
  0 <= n -> 1 <= k -> Py.range_length 0 n k = (n + k - 1) / k.
Proof.
  intros Hn Hk. unfold Py.range_length.
  destruct (Z.ltb_spec 0 k); [|lia].
  destruct (Z.ltb_spec 0 n).
  - replace (n - 0 - 1) with (n - 1) by lia.
    replace (n + k - 1) with ((n - 1) + 1 * k) by lia.
    rewrite Z.div_add by lia. reflexivity.
  - assert (n = 0) by lia. subst n.
    symmetry. apply Z.div_small. lia.
Qed.

Lemma ceil_bounds (n k : Z) :
  0 <= n -> 1 <= k ->
  ((n + k - 1) / k - 1) * k < n \/ n = 0 /\ (n + k - 1) / k = 0.
Proof.
  intros Hn Hk.
  destruct (Z.eq_dec n 0) as [->|Hne].
  - right. split; [reflexivity|]. apply Z.div_small. lia.
  - left.
    pose proof (Z.div_mod (n + k - 1) k ltac:(lia)) as Hdm.
    pose proof (Z.mod_pos_bound (n + k - 1) k ltac:(lia)) as Hb.
    nia.
Qed.

Lemma ceil_upper (n k : Z) :
  0 <= n -> 1 <= k -> n <= (n + k - 1) / k * k.
Proof.
  intros Hn Hk.
  pose proof (Z.div_mod (n + k - 1) k ltac:(lia)) as Hdm.
  pose proof (Z.mod_pos_bound (n + k - 1) k ltac:(lia)) as Hb.
  nia.
Qed.

(** *** Chunks of a list *)

Section Chunks.
Context {A : Type}.
Implicit Types (l : list A) (k m i r : nat).

Lemma slice_chunk l (idx k : Z) :
  0 <= idx -> 1 <= k ->
  Py.slice l idx (idx + k) = take (Z.to_nat k) (drop (Z.to_nat idx) l).
Proof.
  intros Hi Hk. unfold Py.slice, Py.adjust_index.
  destruct (Z.ltb_spec idx 0); [lia|].
  destruct (Z.ltb_spec (idx + k) 0); [lia|].
  set (n := Z.of_nat (length l)).
  destruct (Z.leb_spec n idx) as [Hge|Hlt].
  - destruct (Z.leb_spec n (idx + k)); [|lia].
    rewrite !drop_ge by lia. by rewrite !take_nil.
  - destruct (Z.leb_spec n (idx + k)) as [Hge'|Hlt'].
    + rewrite !take_ge; [done| |]; rewrite length_drop; lia.
    + f_equal. lia.
Qed.

Lemma batches_chunks l (k : Z) :
  1 <= k ->
  batches l k =
    inr (chunk_at l (Z.to_nat k)
           <$> seq 0 (Z.to_nat ((Z.of_nat (length l) + k - 1) / k))).
Proof.
  intros Hk. unfold batches, Py.range.
  destruct (Z.eqb_spec k 0); [lia|]. simpl.
  rewrite range_length_pos by lia.
  f_equal. rewrite <- list_fmap_compose.
  apply list_fmap_ext. intros _ i _. simpl.
  rewrite slice_chunk by lia.
  unfold chunk_at. do 2 f_equal. lia.
Qed.

Lemma concat_chunks l k m :
  concat (chunk_at l k <$> seq 0 m) = take (m * k) l.
Proof.
  induction m as [|m IH]; [done|].
  rewrite seq_S, fmap_app, concat_app, IH. simpl.
  rewrite app_nil_r. unfold chunk_at.
  rewrite take_take_drop. f_equal. lia.
Qed.

Lemma length_chunk_at l k i :
  length (chunk_at l k i) = Nat.min k (length l - i * k).
Proof. unfold chunk_at. by rewrite length_take, length_drop. Qed.

Lemma lookup_chunk_at l k i r :
  (r < k)%nat -> chunk_at l k i !! r = l !! (i * k + r)%nat.
Proof.
  intros Hr. unfold chunk_at.
  rewrite lookup_take_lt by done. apply lookup_drop.
Qed.

End Chunks.

Lemma chunk_count_nat (n : nat) (k : Z) :
  1 <= k ->
  let m := Z.to_nat ((Z.of_nat n + k - 1) / k) in
  (n <= m * Z.to_nat k)%nat /\ (m * Z.to_nat k < n + Z.to_nat k)%nat.
Proof.
  intros Hk m.
  assert (Hc : 0 <= (Z.of_nat n + k - 1) / k)
    by (apply Z.div_pos; lia).
  pose proof (ceil_upper (Z.of_nat n) k ltac:(lia) Hk) as Hup.
  pose proof (ceil_bounds (Z.of_nat n) k ltac:(lia) Hk) as Hlo.
  subst m. split; nia.
Qed.

(** C2.  For a chunk size [k >= 1] the batching step succeeds and yields
    ceil(n/k) chunks whose concatenation is the list of examples; every
    chunk but the last has exactly [k] elements, and the last one has
    between 1 and [k] elements. *)
Theorem batches_partition {A} (examples : list A) (k : Z) :
  1 <= k ->
  exists bs : list (list A),
    batches examples k = inr bs
    /\ Z.of_nat (length bs) = (Z.of_nat (length examples) + k - 1) / k
    /\ Z.of_nat (length examples) <= Z.of_nat (length bs) * k
         < Z.of_nat (length examples) + k
    /\ concat bs = examples
    /\ (forall (i : nat) b, bs !! i = Some b -> (S i < length bs)%nat ->
          Z.of_nat (length b) = k)
    /\ (forall b, last bs = Some b -> 1 <= Z.of_nat (length b) <= k).
Proof.
  intros Hk. rewrite batches_chunks by done.
  set (k' := Z.to_nat k).
  set (m := Z.to_nat ((Z.of_nat (length examples) + k - 1) / k)).
  destruct (chunk_count_nat (length examples) k Hk) as [Hup Hlo].
  fold k' m in Hup, Hlo.
  assert (Hlen : length (chunk_at examples k' <$> seq 0 m) = m)
    by (by rewrite length_fmap, length_seq).
  assert (Hget : forall (i : nat) b,
             (chunk_at examples k' <$> seq 0 m) !! i = Some b ->
             b = chunk_at examples k' i /\ (i < m)%nat).
  { intros i b Hi. rewrite list_lookup_fmap in Hi.
    destruct (seq 0 m !! i) as [j|] eqn:Hj; [|done].
    apply lookup_seq in Hj as [-> ?]. simpl in Hi. by inversion Hi. }
  eexists. split; [reflexivity|]. rewrite Hlen.
  assert (Hm : Z.of_nat m = (Z.of_nat (length examples) + k - 1) / k).
  { subst m. apply Z2Nat.id, Z.div_pos; lia. }
  split; [done|]. split; [nia|]. split.
  { rewrite concat_chunks. by apply take_ge. }
  split.
  - intros i b Hi Hlast. apply Hget in Hi as [-> _].
    rewrite length_chunk_at. nia.
  - intros b Hb. rewrite last_lookup, Hlen in Hb.
    apply Hget in Hb as [-> ?].
    rewrite length_chunk_at. nia.
Qed.

(** An instance of [batches_partition]: five examples in chunks of two. *)
Lemma batches_partition_witness :
  exists bs : list (list Z),
    batches [10; 11; 12; 13; 14] 2 = inr bs
    /\ Z.of_nat (length bs) = 3
    /\ concat bs = [10; 11; 12; 13; 14].
Proof.
  destruct (batches_partition [10; 11; 12; 13; 14] 2 ltac:(lia))
    as (bs & Hbs & Hlen & _ & Hcat & _).
  exists bs. repeat split; [exact Hbs | exact Hlen | exact Hcat].
Defined.

(** ** Padding *)

Lemma max_list_longest (raw : list (list Z)) :
  longest (max_list (length <$> raw)) raw.
Proof.
  split.
  - intros s Hs. apply max_list_elem_of_le.
    apply list_elem_of_fmap. by exists s.
  - intros Hne.
    assert (Hne' : length <$> raw <> []) by (by destruct raw).
    apply max_list_elem_of in Hne'.
    apply list_elem_of_fmap in Hne' as (s & Hlen & Hs). by exists s.
Qed.

Lemma Pad_padded (pad : Z) (raw : list (list Z)) :
  padded_to pad (max_list (length <$> raw)) raw (Pad pad raw).
Proof.
  pose proof (max_list_longest raw) as [Hle _].
  unfold Pad. set (L := max_list (length <$> raw)) in *.
  split; [by rewrite length_fmap|].
  intros i s Hi. eexists. split; [by rewrite list_lookup_fmap, Hi|].
  assert (length s <= L)%nat
    by (apply Hle, list_elem_of_lookup; by exists i).
  repeat split.
  - rewrite length_app, length_replicate. lia.
  - intros j Hj. by apply lookup_app_l.
  - intros j Hj. rewrite lookup_app_r by lia.
    apply lookup_replicate_2. lia.
Qed.

(** C3.  After [batchify_fn], the [input_ids] rows of a batch all have
    the length of the longest raw [input_ids] sequence of the batch,
    the raw tokens are where they were and every further position holds
    the pad token id of the tokenizer; likewise for [segment_ids]. *)
Theorem batchify_fn_padded (tokenizer : Tokenizer)
    (batch : list (list Z * list Z)) :
  exists len_ids len_segs : nat,
    longest len_ids (batch.*1) /\ longest len_segs (batch.*2)
    /\ padded_to (pad_token_id tokenizer) len_ids
         (batch.*1) (batchify_fn tokenizer batch).1
    /\ padded_to (pad_token_id tokenizer) len_segs
         (batch.*2) (batchify_fn tokenizer batch).2.
Proof.
  exists (max_list (length <$> batch.*1)), (max_list (length <$> batch.*2)).
  split; [apply max_list_longest|]. split; [apply max_list_longest|].
  split; apply Pad_padded.
Qed.

(** ** Example encoding *)

(** C4.  With [is_test] false, [convert_example] raises
    [UnboundLocalError] on reading [label] at line 85, for every
    example and every label list: the label map is never consulted, so
    no key-not-found failure can arise, whether or not a label is in
    the list. *)
Theorem convert_example_labeled_unbound (example : string)
    (tokenizer : Tokenizer) (label_list : list string) (max_seq_length : Z) :
  convert_example example tokenizer label_list max_seq_length false
  = inl (Py.UnboundLocalError "label").
Proof. reflexivity. Qed.

(** The same on a concrete call whose text is itself in the label list. *)
Example convert_example_labeled_present (tokenizer : Tokenizer) :
  convert_example "positive" tokenizer ["negative"; "positive"] 128 false
  = inl (Py.UnboundLocalError "label").
Proof. reflexivity. Qed.

Lemma convert_example_test (example : string) (tokenizer : Tokenizer)
    (label_list : list string) (max_seq_length : Z) :
  convert_example example tokenizer label_list max_seq_length true
  = inr (input_ids (tokenize tokenizer example max_seq_length),
         token_type_ids (tokenize tokenizer example max_seq_length),
         None).
Proof. reflexivity. Qed.

Lemma encode_examples_acc (self : Predictor) (tokenizer : Tokenizer)
    (label_map : Py.dict string) (data : list string)
    (acc : list (list Z * list Z)) :
  for_in data (fun examples text =>
    r ← convert_example text tokenizer (Py.values label_map)
          (self_max_seq_length self) true;
    match r with
    | (input_ids, segment_ids, None) =>
        mret (examples ++ [(input_ids, segment_ids)])
    | (_, _, Some _) => mthrow Py.ValueError
    end) acc
  = inr (acc ++ (encoded self tokenizer <$> data)).
Proof.
  revert acc. induction data as [|text data IH]; intros acc; simpl.
  - by rewrite app_nil_r.
  - rewrite IH. by rewrite <- app_assoc.
Qed.

Lemma encode_examples_eq (self : Predictor) (data : list string)
    (tokenizer : Tokenizer) (label_map : Py.dict string) :
  encode_examples self data tokenizer label_map
  = inr (encoded self tokenizer <$> data).
Proof. unfold encode_examples. by rewrite encode_examples_acc. Qed.

(** ** Decoding of a batch *)

Section MapM.
Context {A B : Type} (f : A -> Py.result B).

Lemma mapM_result_cons (x : A) (l : list A) :
  mapM f (x :: l) =
    match f x with
    | inl e => inl e
    | inr y => match mapM f l with
               | inl e => inl e
               | inr k => inr (y :: k)
               end
    end.
Proof. simpl. destruct (f x); [done|]. simpl. by destruct (mapM f l). Qed.

Lemma mapM_result_inr (l : list A) (k : list B) :
  mapM f l = inr k <-> Forall2 (fun x y => f x = inr y) l k.
Proof.
  revert k. induction l as [|x l IH]; intros k.
  - simpl. split.
    + intros [= <-]. constructor.
    + intros Hk. by inversion Hk.
  - rewrite mapM_result_cons. split.
    + destruct (f x) as [e|y] eqn:Hx; [done|].
      destruct (mapM f l) as [e|k'] eqn:Hl; [done|].
      intros [= <-]. constructor; [done|]. by apply IH.
    + intros Hk. inversion Hk as [|? y ? k' Hx Hl]; subst.
      rewrite Hx. apply IH in Hl. by rewrite Hl.
Qed.

Lemma mapM_result_inl (l : list A) (e : Py.exn) :
  mapM f l = inl e -> exists x, x ∈ l /\ f x = inl e.
Proof.
  induction l as [|x l IH]; [done|].
  rewrite mapM_result_cons.
  destruct (f x) as [e'|y] eqn:Hx.
  - intros [= <-]. exists x. split; [left|done].
  - destruct (mapM f l) as [e'|k]; [|done].
    intros [= <-]. destruct IH as (x' & ? & ?); [done|].
    exists x'. split; [by right|done].
Qed.

Lemma mapM_result_total (l : list A) :
  (forall x, x ∈ l -> exists y, f x = inr y) ->
  exists k, mapM f l = inr k.
Proof.
  intros Hall.
  destruct (mapM f l) as [e|k] eqn:Hl; [|by exists k].
  apply mapM_result_inl in Hl as (x & Hx & He).
  destruct (Hall x Hx) as [y Hy]. congruence.
Qed.

End MapM.

Section Decode.
Context (E : Env) (self : Predictor) (tokenizer : Tokenizer).
Context (label_map : Py.dict string).

Lemma argmax_error (row : list Q) (e : Py.exn) :
  argmax row = inl e -> e = Py.ValueError.
Proof. destruct row; [by intros [= <-]|done]. Qed.

Lemma getitem_int_error (i : Z) (e : Py.exn) :
  Py.getitem_int label_map i = inl e -> e = Py.KeyError (Py.KInt i).
Proof.
  unfold Py.getitem_int. destruct (Py.dict_lookup label_map i); [done|].
  by intros [= <-].
Qed.

Lemma decode_inr (logits : matrix) (labels : list string) :
  decode E label_map logits = inr labels
  <-> Forall2 (fun row lbl => row_label E label_map row = inr lbl)
              logits labels.
Proof.
  unfold decode, row_label. split.
  - destruct (mapM argmax (softmax E <$> logits)) as [e|idx] eqn:Hidx;
      [done|]. simpl.
    apply mapM_result_inr in Hidx. intros Hl%mapM_result_inr.
    apply Forall2_fmap_l in Hidx.
    revert labels Hl. induction Hidx as [|row i logits idx Hi _ IH];
      intros labels Hl; inversion Hl; subst; constructor.
    + simpl in Hi. rewrite Hi. done.
    + by apply IH.
  - intros Hall.
    assert (exists idx,
      Forall2 (fun row i => argmax (softmax E row) = inr i) logits idx
      /\ Forall2 (fun i lbl =>
            Py.getitem_int label_map (Z.of_nat i) = inr lbl) idx labels)
      as (idx & H1 & H2).
    { induction Hall as [|row lbl logits labels Hr _ (idx & ? & ?)].
      - exists []. split; constructor.
      - destruct (argmax (softmax E row)) as [e|i] eqn:Hi; [done|].
        exists (i :: idx). split; constructor; done. }
    assert (mapM argmax (softmax E <$> logits) = inr idx) as ->
      by (apply mapM_result_inr, Forall2_fmap_l; exact H1).
    simpl. by apply mapM_result_inr.
Qed.

Lemma decode_inl (logits : matrix) (e : Py.exn) :
  decode E label_map logits = inl e -> decode_error e.
Proof.
  unfold decode.
  destruct (mapM argmax (softmax E <$> logits)) as [e'|idx] eqn:Hidx.
  - intros [= <-]. apply mapM_result_inl in Hidx as (row & _ & He).
    left. by eapply argmax_error.
  - simpl. intros (i & _ & He)%mapM_result_inl.
    right. eexists. by eapply getitem_int_error.
Qed.

Lemma predict_batch_eq (results : list string)
    (batch : list (list Z * list Z)) (w : world) :
  predict_batch E self tokenizer label_map results batch w
  = (match decode E label_map (batch_logits self tokenizer batch) with
     | inl e => inl e
     | inr labels => inr (results ++ labels)
     end,
     after_batch self tokenizer batch w).
Proof.
  unfold predict_batch, decode, after_batch, batch_logits.
  destruct (batchify_fn tokenizer batch) as [ids segs]. simpl.
  unfold mbind, M_bind, copy_from_cpu, run, copy_to_cpu, log, lift. simpl.
  rewrite <- !app_assoc. simpl.
  destruct (mapM argmax _) as [e|idx]; [done|]. simpl.
  destruct (mapM _ idx) as [e|labels]; done.
Qed.

Lemma predict_loop_ok (bs : list (list (list Z * list Z)))
    (lss : list (list string)) (acc : list string) (w : world) :
  Forall2 (fun b ls =>
    decode E label_map (batch_logits self tokenizer b) = inr ls) bs lss ->
  for_in bs (predict_batch E self tokenizer label_map) acc w
  = (inr (acc ++ concat lss),
     foldl (fun w b => after_batch self tokenizer b w) w bs).
Proof.
  intros Hall. revert acc w.
  induction Hall as [|b ls bs lss Hb _ IH]; intros acc w; simpl.
  - by rewrite app_nil_r.
  - unfold mbind, M_bind. rewrite predict_batch_eq, Hb.
    rewrite IH. by rewrite <- app_assoc.
Qed.

Lemma predict_loop_error (bs : list (list (list Z * list Z)))
    (acc : list string) (w : world) (e : Py.exn) :
  (for_in bs (predict_batch E self tokenizer label_map) acc w).1 = inl e ->
  decode_error e.
Proof.
  revert acc w. induction bs as [|b bs IH]; intros acc w; simpl; [done|].
  unfold mbind, M_bind. rewrite predict_batch_eq.
  destruct (decode E label_map _) as [e'|labels] eqn:Hd.
  - simpl. intros [= <-]. by eapply decode_inl.
  - apply IH.
Qed.

Lemma predict_error (data : list string) (batch_size : Z) (w : world)
    (e : Py.exn) :
  (predict E self data tokenizer label_map batch_size w).1 = inl e ->
  decode_error e.
Proof.
  unfold predict, mbind at 1, M_bind at 1, lift at 1.
  rewrite encode_examples_eq.
  unfold mbind at 1, M_bind at 1, lift.
  destruct (batches _ batch_size) as [e'|bs] eqn:Hb.
  - simpl. intros [= <-]. left.
    unfold batches, Py.range in Hb.
    destruct (batch_size =? 0); [by inversion Hb|by inversion Hb].
  - apply predict_loop_error.
Qed.

End Decode.

(** C7.  On the prediction path every text is encoded through the
    [is_test] branch: the encoding step of [predict] succeeds for every
    input and yields exactly the [(input_ids, token_type_ids)] pairs of
    the tokenizer, in order; and [predict] never raises the
    [UnboundLocalError] or the label [KeyError] of the labeled branch. *)
Theorem predict_encodes_unlabeled (E : Env) (self : Predictor)
    (data : list string) (tokenizer : Tokenizer)
    (label_map : Py.dict string) (batch_size : Z) (w : world) :
  encode_examples self data tokenizer label_map
  = inr ((fun text =>
            (input_ids (tokenize tokenizer text (self_max_seq_length self)),
             token_type_ids
               (tokenize tokenizer text (self_max_seq_length self))))
         <$> data)
  /\ (forall name : string,
        (predict E self data tokenizer label_map batch_size w).1
        <> inl (Py.UnboundLocalError name))
  /\ (forall label : string,
        (predict E self data tokenizer label_map batch_size w).1
        <> inl (Py.KeyError (Py.KStr label))).
Proof.
  split; [apply encode_examples_eq|].
  split; intros x Hx; apply predict_error in Hx as [|[]]; done.
Qed.

(** ** Arg-max selection *)

Lemma argmax_scan_spec (row pre : list Q) (mi : nat) (mv : Q) :
  pre !! mi = Some mv ->
  (forall (j : nat) x, pre !! j = Some x -> (x <= mv)%Q) ->
  (forall (j : nat) x, (j < mi)%nat -> pre !! j = Some x -> (x < mv)%Q) ->
  exists v : Q,
    (pre ++ row) !! argmax_scan mi mv (length pre) row = Some v
    /\ (forall (j : nat) x, (pre ++ row) !! j = Some x -> (x <= v)%Q)
    /\ (forall (j : nat) x,
          (j < argmax_scan mi mv (length pre) row)%nat ->
          (pre ++ row) !! j = Some x -> (x < v)%Q).
Proof.
  revert pre mi mv. induction row as [|x row IH]; intros pre mi mv Hmi Hle Hlt.
  - simpl. rewrite app_nil_r. by exists mv.
  - simpl. replace (pre ++ x :: row) with ((pre ++ [x]) ++ row)
      by (by rewrite <- app_assoc).
    replace (S (length pre)) with (length (pre ++ [x]))
      by (rewrite length_app; simpl; lia).
    assert (Hin : forall (j : nat) y, (pre ++ [x]) !! j = Some y ->
              pre !! j = Some y \/ j = length pre /\ y = x).
    { intros j y Hj. apply lookup_app_Some in Hj as [?|[? Hj]]; [by left|].
      right. apply list_lookup_singleton_Some in Hj as [? ->].
      split; [lia|done]. }
    destruct (Qle_bool x mv) eqn:Hx.
    + apply Qle_bool_iff in Hx. apply IH.
      * apply lookup_app_l_Some. done.
      * intros j y Hj. apply Hin in Hj as [?|[_ ->]]; [by eapply Hle|done].
      * intros j y Hj Hy. apply Hin in Hy as [?|[-> _]]; [by eapply Hlt|].
        apply lookup_lt_Some in Hmi. lia.
    + assert (mv < x)%Q as Hgt.
      { apply Qnot_le_lt. intros Hc. apply Qle_bool_iff in Hc. congruence. }
      apply IH.
      * rewrite lookup_app_r by lia. by rewrite Nat.sub_diag.
      * intros j y Hj. apply Hin in Hj as [Hj|[_ ->]]; [|apply Qle_refl].
        apply Qlt_le_weak. eapply Qle_lt_trans; [by eapply Hle|done].
      * intros j y Hlen Hy. apply Hin in Hy as [Hj|[-> _]]; [|lia].
        eapply Qle_lt_trans; [by eapply Hle|done].
Qed.

Lemma argmax_sound (row : list Q) (i : nat) :
  argmax row = inr i ->
  exists v : Q,
    row !! i = Some v
    /\ (forall (j : nat) x, row !! j = Some x -> (x <= v)%Q)
    /\ (forall (j : nat) x, (j < i)%nat -> row !! j = Some x -> (x < v)%Q).
Proof.
  destruct row as [|x row]; [done|]. intros [= <-].
  apply (argmax_scan_spec row [x] 0 x).
  - done.
  - intros [|j] y; [|done]. intros [= ->]. apply Qle_refl.
  - intros j y Hj. lia.
Qed.

(** On a non-empty row the arg-max returns a column index at which
    the row attains its maximum: no entry of the row exceeds the entry
    at that index, and every entry at a lower index is strictly smaller,
    so that among equal maxima the lowest index is selected. *)
Theorem argmax_first_maximum (row : list Q) :
  row <> [] ->
  exists (i : nat) (v : Q),
    argmax row = inr i
    /\ row !! i = Some v
    /\ (forall (j : nat) x, row !! j = Some x -> (x <= v)%Q)
    /\ (forall (j : nat) x, (j < i)%nat -> row !! j = Some x -> (x < v)%Q).
Proof.
  destruct row as [|x row]; [done|]. intros _.
  destruct (argmax_sound (x :: row) _ eq_refl) as (v & Hv).
  by exists (argmax_scan 0 x 1 row), v.
Qed.

(** Each label that the decoding of lines 162-165 returns is the entry
    of the label map at the first maximum of its row of probabilities. *)
Corollary decode_first_maximum (E : Env) (label_map : Py.dict string)
    (logits : matrix) (labels : list string) :
  decode E label_map logits = inr labels ->
  Forall2 (fun row lbl =>
    exists (i : nat) (v : Q),
      softmax E row !! i = Some v
      /\ (forall (j : nat) x, softmax E row !! j = Some x -> (x <= v)%Q)
      /\ (forall (j : nat) x, (j < i)%nat ->
            softmax E row !! j = Some x -> (x < v)%Q)
      /\ Py.dict_lookup label_map (Z.of_nat i) = Some lbl)
    logits labels.
Proof.
  intros Hd. apply decode_inr in Hd.
  eapply Forall2_impl; [exact Hd|].
  intros row lbl Hrow. unfold row_label in Hrow.
  destruct (argmax (softmax E row)) as [e|i] eqn:Hi; [done|].
  simpl in Hrow. unfold Py.getitem_int in Hrow.
  destruct (Py.dict_lookup label_map (Z.of_nat i)) as [l|] eqn:Hl; [|done].
  injection Hrow as ->.
  destruct (argmax_sound _ _ Hi) as (v & Hv & Hmax & Hfirst).
  by exists i, v.
Qed.

(** An instance of [argmax_first_maximum] with a tie between the
    columns 1 and 2. *)
Lemma argmax_first_maximum_witness :
  exists v : Q,
    argmax [1#4; 3#8; 3#8] = inr 1%nat
    /\ [1#4; 3#8; 3#8] !! 1%nat = Some v.
Proof.
  destruct (argmax_first_maximum [1#4; 3#8; 3#8] ltac:(done))
    as (i & v & Hi & Hv & _).
  vm_compute in Hi. injection Hi as <-.
  exists v. split; [reflexivity|exact Hv].
Defined.

(** C5.  In the decoding of a batch (lines 162-165), when no row of
    probabilities is empty, an index is selected for every row of the
    scores that the engine returned, in row order; the index selected
    for a row is a column at which the row of probabilities attains
    its maximum, every entry at a lower column being strictly smaller,
    so that ties go to the lowest index; and the outcome of the loop
    body is the look-up of exactly these indices in the label map,
    appended to the results so far. *)
Theorem predict_batch_first_maximum (E : Env) (self : Predictor)
    (tokenizer : Tokenizer) (label_map : Py.dict string)
    (results : list string) (batch : list (list Z * list Z)) (w : world) :
  (forall row : list Q,
     row ∈ batch_logits self tokenizer batch -> softmax E row <> []) ->
  exists idx : list nat,
    Forall2 (fun row i =>
      exists v : Q,
        softmax E row !! i = Some v
        /\ (forall (j : nat) x, softmax E row !! j = Some x -> (x <= v)%Q)
        /\ (forall (j : nat) x, (j < i)%nat ->
              softmax E row !! j = Some x -> (x < v)%Q))
      (batch_logits self tokenizer batch) idx
    /\ (predict_batch E self tokenizer label_map results batch w).1
       = match mapM (fun i => Py.getitem_int label_map (Z.of_nat i)) idx with
         | inl e => inl e
         | inr labels => inr (results ++ labels)
         end.
Proof.
  intros Hne.
  destruct (mapM_result_total argmax
              (softmax E <$> batch_logits self tokenizer batch))
    as [idx Hidx].
  { intros probs (row & -> & Hrow)%list_elem_of_fmap.
    specialize (Hne row Hrow).
    destruct (softmax E row) as [|x probs]; [done|]. by eexists. }
  exists idx. split.
  - apply mapM_result_inr, Forall2_fmap_l in Hidx.
    eapply Forall2_impl; [exact Hidx|].
    intros row i Hi. by apply argmax_sound.
  - rewrite predict_batch_eq. unfold decode. rewrite Hidx. simpl.
    by destruct (mapM _ idx).
Qed.

(** An instance of [predict_batch_first_maximum]: a batch of two texts
    on the two-class network. *)
Lemma predict_batch_first_maximum_witness :
  exists idx : list nat,
    length idx = 2%nat
    /\ (predict_batch toy_env toy_predictor toy_tokenizer label_map []
          [([1; 5; 5; 2], [0; 0; 0; 0]); ([1; 5; 2], [0; 0; 0])] world0).1
       = match mapM (fun i => Py.getitem_int label_map (Z.of_nat i)) idx with
         | inl e => inl e
         | inr labels => inr ([] ++ labels)
         end.
Proof.
  destruct (predict_batch_first_maximum toy_env toy_predictor toy_tokenizer
              label_map []
              [([1; 5; 5; 2], [0; 0; 0; 0]); ([1; 5; 2], [0; 0; 0])] world0)
    as (idx & Hrows & Hres).
  - intros row Hrow.
    apply list_elem_of_fmap in Hrow as (r & -> & _). done.
  - exists idx. split; [|exact Hres].
    by rewrite <- (Forall2_length _ _ _ Hrows).
Defined.

(** ** Order preservation *)

Section ConcatChunks.
Context {A B : Type} (g : list A -> list B).
Context (l : list A) (k : nat).
Hypothesis g_length : forall j : nat,
  length (g (chunk_at l k j)) = length (chunk_at l k j).

Lemma length_concat_chunks (m : nat) :
  length (concat (g <$> (chunk_at l k <$> seq 0 m)))
  = Nat.min (m * k) (length l).
Proof.
  induction m as [|m IH]; [done|].
  rewrite seq_S, !fmap_app, concat_app, length_app, IH. simpl.
  rewrite app_nil_r, g_length, length_chunk_at. lia.
Qed.

Lemma lookup_concat_chunks (m j r : nat) :
  (r < k)%nat -> (j < m)%nat -> (j * k + r < length l)%nat ->
  concat (g <$> (chunk_at l k <$> seq 0 m)) !! (j * k + r)%nat
  = g (chunk_at l k j) !! r.
Proof.
  intros Hr Hj Hlt. induction m as [|m IH]; [lia|].
  rewrite seq_S, !fmap_app, concat_app. simpl. rewrite app_nil_r.
  destruct (decide (j < m)%nat) as [Hjm|Hjm].
  - rewrite lookup_app_l; [by apply IH|].
    rewrite length_concat_chunks. nia.
  - assert (j = m) as -> by lia.
    rewrite lookup_app_r; rewrite length_concat_chunks; [|lia].
    f_equal. lia.
Qed.

End ConcatChunks.

Section Predict.
Context (E : Env) (self : Predictor) (tokenizer : Tokenizer).
Context (label_map : Py.dict string).

Lemma length_batchify_fn (batch : list (list Z * list Z)) :
  length (batchify_fn tokenizer batch).1 = length batch.
Proof. unfold batchify_fn, Tuple, Pad. simpl. by rewrite !length_fmap. Qed.

Lemma decode_total (logits : matrix) :
  (forall row, row ∈ logits ->
     exists lbl, row_label E label_map row = inr lbl) ->
  exists labels, decode E label_map logits = inr labels.
Proof.
  intros Hall. induction logits as [|row logits IH].
  - exists []. by apply decode_inr.
  - destruct (Hall row) as [lbl Hlbl]; [left|].
    destruct IH as [labels Hlabels].
    { intros row' ?. apply Hall. by right. }
    exists (lbl :: labels). apply decode_inr.
    constructor; [done|]. by apply decode_inr.
Qed.

Context (Hrows : row_per_example self).
Context (Hcover : labels_cover E self label_map).

Lemma batch_labels_decode (batch : list (list Z * list Z)) :
  decode E label_map (batch_logits self tokenizer batch)
  = inr (batch_labels E self tokenizer label_map batch).
Proof.
  unfold batch_labels.
  destruct (decode_total (batch_logits self tokenizer batch)) as [ls ->];
    [|done].
  intros row Hrow. by eapply Hcover.
Qed.

Lemma batch_labels_rows (batch : list (list Z * list Z)) :
  Forall2 (fun row lbl => row_label E label_map row = inr lbl)
    (batch_logits self tokenizer batch)
    (batch_labels E self tokenizer label_map batch).
Proof. apply decode_inr, batch_labels_decode. Qed.

Lemma length_batch_logits (batch : list (list Z * list Z)) :
  length (batch_logits self tokenizer batch) = length batch.
Proof. unfold batch_logits. by rewrite Hrows, length_batchify_fn. Qed.

Lemma length_batch_labels (batch : list (list Z * list Z)) :
  length (batch_labels E self tokenizer label_map batch) = length batch.
Proof.
  rewrite <- (Forall2_length _ _ _ (batch_labels_rows batch)).
  apply length_batch_logits.
Qed.

Lemma predict_eq (data : list string) (k : Z) (w : world) :
  1 <= k ->
  let bs := chunk_at (encoded self tokenizer <$> data) (Z.to_nat k)
              <$> seq 0 (Z.to_nat ((Z.of_nat (length data) + k - 1) / k)) in
  predict E self data tokenizer label_map k w
  = (inr (concat (batch_labels E self tokenizer label_map <$> bs)),
     foldl (fun w b => after_batch self tokenizer b w) w bs).
Proof.
  intros Hk bs. unfold predict, mbind at 1, M_bind at 1, lift at 1.
  rewrite encode_examples_eq.
  unfold mbind at 1, M_bind at 1, lift.
  rewrite batches_chunks by done. rewrite length_fmap. fold bs.
  erewrite predict_loop_ok; [done|].
  apply Forall2_fmap_r, Forall_Forall2_diag, Forall_forall.
  intros b _. apply batch_labels_decode.
Qed.

Lemma length_predict_results (data : list string) (k : Z) :
  1 <= k ->
  length (concat (batch_labels E self tokenizer label_map <$>
            (chunk_at (encoded self tokenizer <$> data) (Z.to_nat k)
               <$> seq 0 (Z.to_nat ((Z.of_nat (length data) + k - 1) / k)))))
  = length data.
Proof.
  intros Hk.
  destruct (chunk_count_nat (length data) k Hk) as [Hup _].
  rewrite (length_concat_chunks _ _ _ (fun j => length_batch_labels _)).
  rewrite length_fmap. lia.
Qed.

End Predict.

(** C1 (as amended).  For a batch size [k >= 1], an engine that returns
    one row of scores per example and a label map that covers the
    decoded indices, [predict] returns one label per input text, and the
    label at index [i] is the one decoded from the row of scores that
    the engine returned for text [i]: text [i] is row [i mod k] of batch
    [i / k], and [results[i]] is the label of that row. *)
Theorem predict_order_preserved (E : Env) (self : Predictor)
    (data : list string) (tokenizer : Tokenizer)
    (label_map : Py.dict string) (k : Z) (w : world) :
  1 <= k ->
  row_per_example self ->
  labels_cover E self label_map ->
  exists (results : list string) (w' : world),
    predict E self data tokenizer label_map k w = (inr results, w')
    /\ length results = length data
    /\ forall (i : nat) (text : string), data !! i = Some text ->
         let batch := chunk_at (encoded self tokenizer <$> data)
                        (Z.to_nat k) (i / Z.to_nat k) in
         let r := (i mod Z.to_nat k)%nat in
         batch !! r = Some (encoded self tokenizer text)
         /\ exists (row : list Q) (lbl : string),
              batch_logits self tokenizer batch !! r = Some row
              /\ row_label E label_map row = inr lbl
              /\ results !! i = Some lbl.
Proof.
  intros Hk Hrows Hcover.
  rewrite (predict_eq E self tokenizer label_map Hcover data k w Hk).
  set (ex := encoded self tokenizer <$> data).
  set (k' := Z.to_nat k).
  set (m := Z.to_nat ((Z.of_nat (length data) + k - 1) / k)).
  assert (Hlen : length ex = length data) by apply length_fmap.
  assert (Hk' : (0 < k')%nat) by (subst k'; lia).
  destruct (chunk_count_nat (length data) k Hk) as [Hup _].
  fold k' m in Hup.
  pose proof (length_batch_labels E self tokenizer label_map Hrows Hcover)
    as Hg.
  eexists _, _. split; [reflexivity|]. split.
  - rewrite (length_concat_chunks _ ex k' (fun j => Hg _)). lia.
  - intros i text Hi batch r.
    pose proof (lookup_lt_Some _ _ _ Hi) as Hilt.
    pose proof (Nat.div_mod_eq i k') as Hdm.
    pose proof (Nat.mod_upper_bound i k' ltac:(lia)) as Hr.
    fold r in Hdm, Hr. set (j := (i / k')%nat) in *.
    assert (Hij : i = (j * k' + r)%nat) by lia.
    assert (Hb : batch !! r = Some (encoded self tokenizer text)).
    { subst batch. rewrite lookup_chunk_at by done.
      rewrite <- Hij. subst ex. by rewrite list_lookup_fmap, Hi. }
    split; [done|].
    destruct (lookup_lt_is_Some_2 (batch_logits self tokenizer batch) r)
      as [row Hrow].
    { rewrite (length_batch_logits self tokenizer Hrows).
      by eapply lookup_lt_Some. }
    destruct (Forall2_lookup_l _ _ _ _ _
      (batch_labels_rows E self tokenizer label_map Hcover batch) Hrow)
      as (lbl & Hlbl & Hrl).
    exists row, lbl. repeat split; [done..|].
    rewrite Hij at 1.
    rewrite (lookup_concat_chunks _ ex k' (fun j => Hg _)); [done|done| |lia].
    nia.
Qed.

Lemma toy_row_per_example : row_per_example toy_predictor.
Proof. intros ids segs. apply length_fmap. Qed.

Lemma toy_labels_cover : labels_cover toy_env toy_predictor label_map.
Proof.
  intros ids segs row Hrow.
  apply list_elem_of_fmap in Hrow as (r & -> & _).
  unfold row_label. simpl. unfold toy_softmax. simpl.
  destruct (Qle_bool _ _); eexists; reflexivity.
Qed.

(** An instance of [predict_order_preserved]: three texts in batches of
    two. *)
Lemma predict_order_preserved_witness :
  exists (results : list string) (w' : world),
    predict toy_env toy_predictor ["ab"; "c"; "defgh"] toy_tokenizer
      label_map 2 world0 = (inr results, w')
    /\ length results = 3%nat.
Proof.
  destruct (predict_order_preserved toy_env toy_predictor
              ["ab"; "c"; "defgh"] toy_tokenizer label_map 2 world0
              ltac:(lia) toy_row_per_example toy_labels_cover)
    as (results & w' & Hp & Hlen & _).
  exists results, w'. split; [exact Hp|exact Hlen].
Defined.

(** C1 as stated fails: with the batch size -1 the range of line 152 is
    empty, no batch is formed and [predict] returns the empty list for
    a non-empty input, although the engine and the label map are as
    they should be. *)
Lemma predict_length_counterexample :
  ~ (forall (E : Env) (self : Predictor) (data : list string)
       (tokenizer : Tokenizer) (label_map : Py.dict string)
       (batch_size : Z) (w : world) (results : list string) (w' : world),
       row_per_example self -> labels_cover E self label_map ->
       data <> [] ->
       predict E self data tokenizer label_map batch_size w
         = (inr results, w') ->
       length results = length data).
Proof.
  intros H.
  specialize (H toy_env toy_predictor ["ab"] toy_tokenizer label_map (-1)
                world0 [] world0 toy_row_per_example toy_labels_cover
                ltac:(done) eq_refl).
  discriminate H.
Qed.

(** ** The empty input *)

(** C10 (as amended).  For the empty input list no batch is formed and
    the world is left as it was, so that no call is made on the engine;
    [predict] returns the empty list when the batch size is not zero,
    and raises the [ValueError] of [range] when it is zero. *)
Theorem predict_empty (E : Env) (self : Predictor) (tokenizer : Tokenizer)
    (label_map : Py.dict string) (batch_size : Z) (w : world) :
  batches ([] : list (list Z * list Z)) batch_size
    = (if batch_size =? 0 then inl Py.ValueError else inr [])
  /\ predict E self [] tokenizer label_map batch_size w
    = (if batch_size =? 0 then inl Py.ValueError else inr [], w).
Proof.
  assert (Hb : batches ([] : list (list Z * list Z)) batch_size
               = (if batch_size =? 0 then inl Py.ValueError else inr [])).
  { unfold batches, Py.range, Py.range_length. simpl.
    destruct (batch_size =? 0); [done|].
    by destruct (0 <? batch_size). }
  split; [exact Hb|].
  unfold predict, mbind at 1, M_bind at 1, lift at 1.
  rewrite encode_examples_eq. simpl.
  unfold mbind, M_bind, lift. rewrite Hb.
  by destruct (batch_size =? 0).
Qed.

(** C10 as stated fails: with the batch size 0 the call raises
    [ValueError] on the empty input instead of returning the empty
    list. *)
Lemma predict_empty_counterexample :
  ~ (forall (E : Env) (self : Predictor) (tokenizer : Tokenizer)
       (label_map : Py.dict string) (batch_size : Z) (w : world),
       (predict E self [] tokenizer label_map batch_size w).1 = inr []).
Proof.
  intros H.
  specialize (H toy_env toy_predictor toy_tokenizer label_map 0 world0).
  discriminate H.
Qed.

(** ** The command line *)

Lemma with_choices_spec (choices : list string) (default : string)
    (v : option string) :
  with_choices choices default v =
    match v with
    | None => inr default
    | Some s => if decide (s ∈ choices) then inr s else usage_error
    end.
Proof.
  destruct v as [s|]; [|done]. simpl.
  destruct (decide (s ∈ choices)).
  - by rewrite bool_decide_eq_true_2.
  - by rewrite bool_decide_eq_false_2.
Qed.

Lemma parse_args_rejects_device (E : Env) (argv : Argv) (v : string) :
  opt_device argv = Some v -> v ∉ device_choices ->
  parse_args E argv = inl (Py.SystemExit 2).
Proof.
  intros Hv Hnot. unfold parse_args.
  destruct (required (opt_model_file argv)) as [e|m] eqn:Hm.
  { unfold required in Hm. destruct (opt_model_file argv); by inversion Hm. }
  destruct (required (opt_params_file argv)) as [e|p] eqn:Hp.
  { unfold required in Hp. destruct (opt_params_file argv); by inversion Hp. }
  simpl.
  destruct (typed_int E 128 _) as [e|msl] eqn:Hmsl.
  { unfold typed_int in Hmsl. destruct (opt_max_seq_length argv) as [s|];
      [destruct (py_int E s)|]; by inversion Hmsl. }
  simpl.
  destruct (typed_int E 2 _) as [e|bs] eqn:Hbs.
  { unfold typed_int in Hbs. destruct (opt_batch_size argv) as [s|];
      [destruct (py_int E s)|]; by inversion Hbs. }
  simpl. rewrite with_choices_spec, Hv.
  by destruct (decide (v ∈ device_choices)).
Qed.

Lemma parse_args_device (E : Env) (argv : Argv) (args : Namespace) :
  parse_args E argv = inr args ->
  args_device args = default "gpu" (opt_device argv)
  /\ args_device args ∈ device_choices.
Proof.
  unfold parse_args.
  destruct (required (opt_model_file argv)) as [e|m]; [done|].
  destruct (required (opt_params_file argv)) as [e|p]; [done|]. simpl.
  destruct (typed_int E 128 _) as [e|msl]; [done|]. simpl.
  destruct (typed_int E 2 _) as [e|bs]; [done|]. simpl.
  rewrite with_choices_spec.
  destruct (opt_device argv) as [v|]; simpl.
  - destruct (decide (v ∈ device_choices)); [|done].
    by intros [= <-].
  - intros [= <-]. simpl. split; [done|]. unfold device_choices.
    apply list_elem_of_In. simpl. tauto.
Qed.

Lemma required_inr (v : option string) (s : string) :
  required v = inr s <-> v = Some s.
Proof. destruct v; simpl; split; intros H; by inversion H. Qed.

Lemma typed_int_inr (E : Env) (default : Z) (v : option string) (z : Z) :
  typed_int E default v = inr z
  <-> match v with
      | None => z = default
      | Some s => py_int E s = Some z
      end.
Proof.
  unfold typed_int. destruct v as [s|].
  - destruct (py_int E s); split; intros H; by inversion H.
  - split; intros H; by inversion H.
Qed.

Lemma parse_args_inr (E : Env) (argv : Argv) (args : Namespace) :
  parse_args E argv = inr args
  <-> required (opt_model_file argv) = inr (args_model_file args)
      /\ required (opt_params_file argv) = inr (args_params_file args)
      /\ typed_int E 128 (opt_max_seq_length argv)
         = inr (args_max_seq_length args)
      /\ typed_int E 2 (opt_batch_size argv) = inr (args_batch_size args)
      /\ with_choices device_choices "gpu" (opt_device argv)
         = inr (args_device args).
Proof.
  unfold parse_args.
  destruct (required (opt_model_file argv)) as [e|m]; simpl;
    [split; [done|by intros [? _]]|].
  destruct (required (opt_params_file argv)) as [e|p]; simpl;
    [split; [done|by intros (_ & ? & _)]|].
  destruct (typed_int E 128 _) as [e|msl]; simpl;
    [split; [done|by intros (_ & _ & ? & _)]|].
  destruct (typed_int E 2 _) as [e|bs]; simpl;
    [split; [done|by intros (_ & _ & _ & ? & _)]|].
  destruct (with_choices _ _ _) as [e|d]; simpl;
    [split; [done|by intros (_ & _ & _ & _ & ?)]|].
  split.
  - by intros [= <-].
  - destruct args. simpl. by intros ([= ->] & [= ->] & [= ->] & [= ->] & [= ->]).
Qed.

(** C8.  The choices of [--device] are [cpu], [gpu] and [xpu] and its
    default is [gpu].  A command line whose other flags are in order is
    accepted by the parser when [--device] is left out or given one of
    the three values, and the namespace then carries the given value,
    or [gpu] when none is given; a parsed namespace never carries
    another device.  Any other given value makes the parser exit with
    a usage error, and the script then ends with the world as it was,
    no predictor having been created. *)
Theorem device_flag_checked (E : Env) (argv : Argv) (w : world) :
  device_choices = ["cpu"; "gpu"; "xpu"]
  /\ (forall args : Namespace, parse_args E argv = inr args ->
        args_device args = default "gpu" (opt_device argv)
        /\ args_device args ∈ device_choices)
  /\ (forall v : string, opt_device argv = Some v -> v ∈ device_choices ->
        with_choices device_choices "gpu" (opt_device argv) = inr v)
  /\ (forall v : string, opt_device argv = Some v -> v ∉ device_choices ->
        parse_args E argv = inl (Py.SystemExit 2)
        /\ script E argv w = (inl (Py.SystemExit 2), w))
  /\ (forall (model_file params_file : string)
             (max_seq_length batch_size : Z),
        opt_model_file argv = Some model_file ->
        opt_params_file argv = Some params_file ->
        match opt_max_seq_length argv with
        | None => max_seq_length = 128
        | Some s => py_int E s = Some max_seq_length
        end ->
        match opt_batch_size argv with
        | None => batch_size = 2
        | Some s => py_int E s = Some batch_size
        end ->
        match opt_device argv with
        | None => True
        | Some v => v = "cpu" \/ v = "gpu" \/ v = "xpu"
        end ->
        parse_args E argv
        = inr {| args_model_file := model_file;
                 args_params_file := params_file;
                 args_max_seq_length := max_seq_length;
                 args_batch_size := batch_size;
                 args_device := default "gpu" (opt_device argv) |}).
Proof.
  split; [done|]. split; [apply parse_args_device|]. split; [|split].
  - intros v Hv Hin. rewrite with_choices_spec, Hv.
    by destruct (decide (v ∈ device_choices)).
  - intros v Hv Hnot.
    pose proof (parse_args_rejects_device E argv v Hv Hnot) as Hp.
    split; [done|].
    unfold script, mbind at 1, M_bind at 1, lift. by rewrite Hp.
  - intros m p msl bs Hm Hp Hmsl Hbs Hdev.
    apply parse_args_inr. simpl.
    rewrite !required_inr, !typed_int_inr, with_choices_spec.
    repeat (split; [done|]).
    destruct (opt_device argv) as [v|]; [|done]. simpl.
    destruct (decide (v ∈ device_choices)) as [|Hnot]; [done|].
    exfalso. apply Hnot. unfold device_choices.
    apply list_elem_of_In. simpl in Hdev.
    destruct Hdev as [-> | [-> | ->]]; simpl; tauto.
Qed.

(** An instance of [device_flag_checked]: the value [tpu] is refused,
    and the value [xpu] is accepted and kept. *)
Lemma device_flag_checked_witness :
  script toy_env
    {| opt_model_file := Some "m.pdmodel";
       opt_params_file := Some "m.pdiparams";
       opt_max_seq_length := None; opt_batch_size := None;
       opt_device := Some "tpu" |} world0
  = (inl (Py.SystemExit 2), world0)
  /\ parse_args toy_env
       {| opt_model_file := Some "m.pdmodel";
          opt_params_file := Some "m.pdiparams";
          opt_max_seq_length := None; opt_batch_size := Some "4";
          opt_device := Some "xpu" |}
     = inr {| args_model_file := "m.pdmodel";
              args_params_file := "m.pdiparams";
              args_max_seq_length := 128; args_batch_size := 4;
              args_device := "xpu" |}.
Proof.
  split.
  - destruct (device_flag_checked toy_env
      {| opt_model_file := Some "m.pdmodel";
         opt_params_file := Some "m.pdiparams";
         opt_max_seq_length := None; opt_batch_size := None;
         opt_device := Some "tpu" |} world0) as (_ & _ & _ & H & _).
    apply (H "tpu"); [reflexivity|].
    unfold device_choices. intros Hin. apply list_elem_of_In in Hin.
    simpl in Hin. intuition discriminate.
  - destruct (device_flag_checked toy_env
      {| opt_model_file := Some "m.pdmodel";
         opt_params_file := Some "m.pdiparams";
         opt_max_seq_length := None; opt_batch_size := Some "4";
         opt_device := Some "xpu" |} world0) as (_ & _ & _ & _ & H).
    apply (H "m.pdmodel" "m.pdiparams" 128 4);
      [reflexivity|reflexivity|reflexivity|reflexivity|].
    simpl. tauto.
Defined.

(** ** The console output *)

Lemma getitem_list_nat {A} (l : list A) (n : nat) (x : A) :
  l !! n = Some x -> getitem_list l (Z.of_nat n) = inr x.
Proof.
  intros Hn. pose proof (lookup_lt_Some _ _ _ Hn) as Hlt.
  unfold getitem_list.
  assert (H1 : (Z.of_nat n <? 0) = false) by lia.
  assert (H2 : (Z.of_nat (length l) <=? Z.of_nat n) = false) by lia.
  rewrite H1. cbv zeta. rewrite H1, H2. cbn [orb].
  by rewrite Nat2Z.id, Hn.
Qed.

Lemma stdout_app (t1 t2 : list event) :
  stdout (t1 ++ t2) = stdout t1 ++ stdout t2.
Proof. apply omap_app. Qed.

Lemma stdout_after_batches (self : Predictor) (tokenizer : Tokenizer)
    (bs : list (list (list Z * list Z))) (w : world) :
  stdout (trace (foldl (fun w b => after_batch self tokenizer b w) w bs))
  = stdout (trace w).
Proof.
  revert w. induction bs as [|b bs IH]; intros w; simpl; [done|].
  rewrite IH. simpl. rewrite stdout_app. simpl. apply app_nil_r.
Qed.

Lemma print_loop_ok (texts results : list string) (off : nat) (w : world) :
  (off + length texts <= length results)%nat ->
  for_in (imap (fun i text => (Z.of_nat (off + i), text)) texts)
    (fun (_ : ()) '(idx, text) =>
       label ← lift (getitem_list results idx);
       print (format_line text label)) () w
  = (inr (),
     {| in0 := in0 w; in1 := in1 w; out := out w;
        trace := trace w ++
          (Print <$> zip_with format_line texts (drop off results)) |}).
Proof.
  revert off w. induction texts as [|text texts IH]; intros off w Hlen.
  - simpl. rewrite app_nil_r. by destruct w.
  - simpl in Hlen.
    destruct (lookup_lt_is_Some_2 results off ltac:(lia)) as [lbl Hlbl].
    rewrite (drop_S _ _ _ Hlbl). simpl.
    unfold mbind at 1, M_bind at 1.
    unfold mbind at 1, M_bind at 1, lift at 1.
    rewrite Nat.add_0_r, (getitem_list_nat _ _ _ Hlbl).
    unfold print, log at 1.
    erewrite (imap_ext _ (fun i text => (Z.of_nat (S off + i), text)));
      [|intros; simpl; f_equal; lia].
    rewrite IH by lia. simpl. by rewrite <- app_assoc.
Qed.

Lemma print_results_ok (texts results : list string) (w : world) :
  length results = length texts ->
  print_results texts results w
  = (inr (),
     {| in0 := in0 w; in1 := in1 w; out := out w;
        trace := trace w ++ (Print <$> zip_with format_line texts results) |}).
Proof.
  intros Hlen. unfold print_results, enumerate.
  exact (print_loop_ok texts results 0 w ltac:(simpl; lia)).
Qed.

Lemma stdout_prints (lines : list string) : stdout (Print <$> lines) = lines.
Proof.
  unfold stdout. induction lines as [|l lines IH]; [done|].
  simpl. by f_equal.
Qed.

Lemma Predictor_init_eq (E : Env) (model_file params_file device : string)
    (max_seq_length : Z) (w : world) :
  Predictor_init E model_file params_file device max_seq_length w
  = (inr {| self_max_seq_length := max_seq_length;
            self_predictor :=
              create_predictor E
                (make_config model_file params_file device) |},
     {| in0 := in0 w; in1 := in1 w; out := out w;
        trace := trace w ++
          [CreatePredictor (make_config model_file params_file device)] |}).
Proof. reflexivity. Qed.

(** C9 (as amended).  When the command line parses to a batch size of
    at least 1, the network of the predictor built from that command
    line returns one row of scores per example and the label map covers
    the indices decoded from them, the script ends normally and prints
    exactly one line per example, in input order: [predict] returns a
    list [results] with one label per example, and the i-th printed
    line is [Data: ] followed by the i-th text, a space, a tab,
    [ Label: ] and the i-th label of [results]. *)
Theorem script_prints_results (E : Env) (argv : Argv) (args : Namespace)
    (w : world) :
  parse_args E argv = inr args ->
  1 <= args_batch_size args ->
  row_per_example (script_predictor E args) ->
  labels_cover E (script_predictor E args) label_map ->
  exists (self : Predictor) (w1 w2 w' : world) (results : list string),
    Predictor_init E (args_model_file args) (args_params_file args)
      (args_device args) (args_max_seq_length args) w = (inr self, w1)
    /\ predict E self data (from_pretrained E "ernie-tiny") label_map
         (args_batch_size args) w1 = (inr results, w2)
    /\ script E argv w = (inr (), w')
    /\ length results = length data
    /\ stdout (trace w')
       = stdout (trace w) ++ zip_with format_line data results
    /\ forall (i : nat) (text : string), data !! i = Some text ->
         exists label : string,
           results !! i = Some label
           /\ drop (length (stdout (trace w))) (stdout (trace w')) !! i
              = Some ("Data: " +:+ text +:+ " " +:+ String tab " Label: "
                      +:+ label).
Proof.
  intros Hparse Hk Hrows Hcover.
  pose proof (Predictor_init_eq E (args_model_file args)
    (args_params_file args) (args_device args) (args_max_seq_length args) w)
    as Hinit.
  fold (script_predictor E args) in Hinit.
  match type of Hinit with _ = (inr ?s, ?w0) => set (self := s) in *;
    set (w1 := w0) in * end.
  pose proof (predict_eq E self (from_pretrained E "ernie-tiny") label_map
                Hcover data _ w1 Hk) as Hpredict.
  pose proof (length_predict_results E self (from_pretrained E "ernie-tiny")
                label_map Hrows Hcover data _ Hk) as Hlen.
  cbv zeta in Hpredict.
  match type of Hpredict with _ = (inr ?r, ?w0) =>
    set (results := r) in *; set (w2 := w0) in * end.
  assert (Hout : stdout (trace w2) = stdout (trace w)).
  { subst w2. rewrite stdout_after_batches. subst w1. simpl.
    rewrite stdout_app. simpl. apply app_nil_r. }
  eexists self, w1, w2, _, results.
  split; [exact Hinit|]. split; [exact Hpredict|].
  assert (Hscript : script E argv w
    = (inr (),
       {| in0 := in0 w2; in1 := in1 w2; out := out w2;
          trace := trace w2 ++
            (Print <$> zip_with format_line data results) |})).
  { unfold script, mbind at 1, M_bind at 1, lift. rewrite Hparse.
    unfold mbind at 1, M_bind at 1. rewrite Hinit.
    unfold mbind at 1, M_bind at 1. rewrite Hpredict.
    by apply print_results_ok. }
  split; [exact Hscript|]. split; [exact Hlen|].
  assert (Hlines : stdout (trace w2 ++
                     (Print <$> zip_with format_line data results))
                   = stdout (trace w) ++ zip_with format_line data results).
  { by rewrite stdout_app, stdout_prints, Hout. }
  split; [exact Hlines|].
  intros i text Hi. cbn [trace]. rewrite Hlines, drop_app_length.
  destruct (lookup_lt_is_Some_2 results i) as [label Hlabel].
  { rewrite Hlen. by eapply lookup_lt_Some. }
  exists label. split; [done|].
  rewrite lookup_zip_with, Hi. simpl. by rewrite Hlabel.
Qed.

Lemma toy_engine_ok : engine_ok toy_env label_map.
Proof.
  intros config max_seq_length self. split.
  - intros ids segs. apply length_fmap.
  - intros ids segs row Hrow.
    apply list_elem_of_fmap in Hrow as (r & -> & _).
    unfold row_label. simpl. unfold toy_softmax. simpl.
    destruct (Qle_bool _ _); eexists; reflexivity.
Qed.

(** An instance of [script_prints_results]: the command line
    [--model_file m.pdmodel --params_file m.pdiparams --device cpu]. *)
Lemma script_prints_results_witness :
  exists w' : world,
    script toy_env
      {| opt_model_file := Some "m.pdmodel";
         opt_params_file := Some "m.pdiparams";
         opt_max_seq_length := None; opt_batch_size := None;
         opt_device := Some "cpu" |} world0 = (inr (), w')
    /\ length (stdout (trace w')) = 3%nat.
Proof.
  destruct (script_prints_results toy_env
      {| opt_model_file := Some "m.pdmodel";
         opt_params_file := Some "m.pdiparams";
         opt_max_seq_length := None; opt_batch_size := None;
         opt_device := Some "cpu" |}
      {| args_model_file := "m.pdmodel"; args_params_file := "m.pdiparams";
         args_max_seq_length := 128; args_batch_size := 2;
         args_device := "cpu" |}
      world0 eq_refl ltac:(simpl; lia)
      (proj1 (toy_engine_ok _ _)) (proj2 (toy_engine_ok _ _)))
    as (self & w1 & w2 & w' & results & _ & _ & Hs & Hlen & Hout & _).
  exists w'. split; [exact Hs|].
  rewrite Hout, length_app, length_zip_with, Hlen. reflexivity.
Defined.

(** C9 as stated fails: for the command line
    [--model_file m.pdmodel --params_file m.pdiparams --batch_size 0]
    the parser accepts the batch size 0, [predict] raises the
    [ValueError] of [range], and the script prints no line for its
    three examples. *)
Lemma script_prints_counterexample :
  ~ (forall (E : Env) (argv : Argv) (args : Namespace) (w : world),
       parse_args E argv = inr args ->
       engine_ok E label_map ->
       length (stdout (trace (script E argv w).2))
       = (length (stdout (trace w)) + length data)%nat).
Proof.
  intros H.
  specialize (H toy_env
    {| opt_model_file := Some "m.pdmodel";
       opt_params_file := Some "m.pdiparams";
       opt_max_seq_length := None; opt_batch_size := Some "0";
       opt_device := None |}
    {| args_model_file := "m.pdmodel"; args_params_file := "m.pdiparams";
       args_max_seq_length := 128; args_batch_size := 0;
       args_device := "gpu" |}
    world0 eq_refl toy_engine_ok).
  vm_compute in H. discriminate H.
Qed.

(** * Further properties of the script *)

(** ** The label map of [convert_example] (lines 81-83) *)

Lemma enumerate_snoc {A} (l : list A) (x : A) :
  enumerate (l ++ [x]) = enumerate l ++ [(Z.of_nat (length l), x)].
Proof.
  unfold enumerate. rewrite imap_app. simpl.
  by rewrite Nat.add_0_r.
Qed.

Lemma build_label_map_snoc (label_list : list string) (l : string) :
  build_label_map (label_list ++ [l])
  = <[l := Z.of_nat (length label_list)]> (build_label_map label_list).
Proof.
  unfold build_label_map. by rewrite enumerate_snoc, foldl_app.
Qed.

(** The map built from [label_list] sends a label to the index of its
    last occurrence in the list, and has no entry for any other string:
    a later duplicate overwrites the index of an earlier one. *)
Theorem build_label_map_lookup (label_list : list string) (l : string)
    (i : Z) :
  build_label_map label_list !! l = Some i
  <-> exists n : nat,
        i = Z.of_nat n
        /\ label_list !! n = Some l
        /\ forall j : nat, (n < j)%nat -> label_list !! j <> Some l.
Proof.
  revert i. induction label_list as [|x label_list IH] using rev_ind;
    intros i.
  - unfold build_label_map. simpl. rewrite lookup_empty.
    split; [done|]. by intros (n & _ & ? & _).
  - rewrite build_label_map_snoc.
    destruct (decide (x = l)) as [->|Hne].
    + rewrite lookup_insert_eq. split.
      * intros [= <-]. exists (length label_list). split; [done|]. split.
        -- by rewrite lookup_app_r, Nat.sub_diag by lia.
        -- intros j Hj. rewrite lookup_ge_None_2; [done|].
           rewrite length_app. simpl. lia.
      * intros (n & -> & Hn & Hlast).
        pose proof (lookup_lt_Some _ _ _ Hn) as Hlt.
        rewrite length_app in Hlt. simpl in Hlt.
        destruct (decide (n = length label_list)) as [->|Hn']; [done|].
        exfalso. apply (Hlast (length label_list)); [lia|].
        by rewrite lookup_app_r, Nat.sub_diag by lia.
    + rewrite lookup_insert_ne by done. rewrite IH. split.
      * intros (n & -> & Hn & Hlast). exists n. split; [done|].
        pose proof (lookup_lt_Some _ _ _ Hn) as Hlt. split.
        -- by rewrite lookup_app_l.
        -- intros j Hj Hc. apply lookup_app_Some in Hc as [Hc|[_ Hc]].
           ++ by apply (Hlast j).
           ++ apply list_lookup_singleton_Some in Hc as [_ ?]. done.
      * intros (n & -> & Hn & Hlast). exists n. split; [done|].
        apply lookup_app_Some in Hn as [Hn|[_ Hn]].
        -- split; [done|]. intros j Hj Hc. apply (Hlast j Hj).
           by apply lookup_app_l_Some.
        -- apply list_lookup_singleton_Some in Hn as [_ ?]. done.
Qed.

(** ** The loop over the batches, in general *)

Section Loop.
Context (E : Env) (self : Predictor) (tokenizer : Tokenizer).
Context (label_map : Py.dict string).

Local Abbreviation body := (predict_batch E self tokenizer label_map).
Local Abbreviation after := (fun w b => after_batch self tokenizer b w).

Lemma trace_after_batches (bs : list (list (list Z * list Z))) (w : world) :
  trace (foldl after w bs)
  = trace w ++ concat (batch_events self tokenizer <$> bs).
Proof.
  revert w. induction bs as [|b bs IH]; intros w; simpl.
  - by rewrite app_nil_r.
  - rewrite IH. simpl. by rewrite <- app_assoc.
Qed.

Lemma for_in_app (bs1 bs2 : list (list (list Z * list Z)))
    (acc : list string) (w : world) :
  for_in (bs1 ++ bs2) body acc w
  = match for_in bs1 body acc w with
    | (inl e, w') => (inl e, w')
    | (inr acc', w') => for_in bs2 body acc' w'
    end.
Proof.
  revert acc w. induction bs1 as [|b bs1 IH]; intros acc w; simpl; [done|].
  unfold mbind, M_bind.
  destruct (body acc b w) as [[e|acc'] w']; [done|]. apply IH.
Qed.

Lemma predict_loop_world (bs : list (list (list Z * list Z)))
    (acc : list string) (w : world) :
  exists j : nat,
    (j <= length bs)%nat
    /\ (for_in bs body acc w).2 = foldl after w (take j bs).
Proof.
  revert acc w. induction bs as [|b bs IH]; intros acc w; simpl.
  - by exists 0%nat.
  - unfold mbind, M_bind. rewrite predict_batch_eq.
    destruct (decode E label_map _) as [e|labels].
    + exists 1%nat. split; [lia|]. simpl. by destruct bs.
    + destruct (IH (acc ++ labels) (after_batch self tokenizer b w))
        as (j & Hj & Hw).
      exists (S j). split; [lia|]. exact Hw.
Qed.

Lemma predict_loop_inr (bs : list (list (list Z * list Z)))
    (acc r : list string) (w : world) :
  (for_in bs body acc w).1 = inr r ->
  exists lss : list (list string),
    Forall2 (fun b ls =>
      decode E label_map (batch_logits self tokenizer b) = inr ls) bs lss
    /\ r = acc ++ concat lss.
Proof.
  revert acc w. induction bs as [|b bs IH]; intros acc w; simpl.
  - intros [= <-]. exists []. split; [constructor|]. by rewrite app_nil_r.
  - unfold mbind, M_bind. rewrite predict_batch_eq.
    destruct (decode E label_map _) as [e|labels] eqn:Hd; [done|].
    intros (lss & Hall & ->)%IH. exists (labels :: lss).
    split; [by constructor|]. simpl. by rewrite <- app_assoc.
Qed.

Lemma predict_loop_result (bs : list (list (list Z * list Z)))
    (acc : list string) (w1 w2 : world) :
  (for_in bs body acc w1).1 = (for_in bs body acc w2).1.
Proof.
  revert acc w1 w2. induction bs as [|b bs IH]; intros acc w1 w2; simpl.
  - done.
  - unfold mbind, M_bind. rewrite !predict_batch_eq.
    destruct (decode E label_map _) as [e|labels]; [done|]. apply IH.
Qed.

Lemma predict_unfold (data : list string) (batch_size : Z) (w : world) :
  predict E self data tokenizer label_map batch_size w
  = match batches (encoded self tokenizer <$> data) batch_size with
    | inl e => (inl e, w)
    | inr bs => for_in bs body [] w
    end.
Proof.
  unfold predict, mbind at 1, M_bind at 1, lift at 1.
  rewrite encode_examples_eq.
  unfold mbind at 1, M_bind at 1, lift.
  by destruct (batches _ batch_size).
Qed.

Lemma engine_calls_batches (bs : list (list (list Z * list Z))) :
  Forall (fun e => is_engine_call e = true)
    (concat (batch_events self tokenizer <$> bs)).
Proof.
  induction bs as [|b bs IH]; simpl; [constructor|].
  repeat (constructor; [done|]). exact IH.
Qed.

Lemma predict_world (data : list string) (batch_size : Z) (w : world) :
  exists bs : list (list (list Z * list Z)),
    (predict E self data tokenizer label_map batch_size w).2
    = foldl after w bs.
Proof.
  rewrite predict_unfold.
  destruct (batches _ batch_size) as [e|bs].
  - by exists [].
  - destruct (predict_loop_world bs [] w) as (j & _ & Hj).
    by exists (take j bs).
Qed.

End Loop.

Lemma batches_example_batches (self : Predictor) (tokenizer : Tokenizer)
    (data : list string) (k : Z) :
  1 <= k ->
  batches (encoded self tokenizer <$> data) k
  = inr (example_batches self tokenizer data k).
Proof.
  intros Hk. rewrite batches_chunks by done.
  unfold example_batches. by rewrite length_fmap.
Qed.

Lemma batches_negative {A} (l : list A) (k : Z) :
  k < 0 -> batches l k = inr [].
Proof.
  intros Hk. unfold batches, Py.range, Py.range_length.
  destruct (Z.eqb_spec k 0); [lia|].
  destruct (Z.ltb_spec 0 k); [lia|].
  destruct (Z.ltb_spec (Z.of_nat (length l)) 0); [lia|]. done.
Qed.

Lemma batches_zero {A} (l : list A) : batches l 0 = inl Py.ValueError.
Proof. done. Qed.

Lemma count_runs_batches (self : Predictor) (tokenizer : Tokenizer)
    (bs : list (list (list Z * list Z))) :
  length (List.filter is_run (concat (batch_events self tokenizer <$> bs)))
  = length bs.
Proof.
  induction bs as [|b bs IH]; [done|]. simpl. f_equal. exact IH.
Qed.

(** ** What [predict] does to the engine and what it returns *)

(** Whatever its arguments and whether it returns or raises, [predict]
    only adds calls on the engine to the trace: it prints nothing and
    creates no predictor. *)
Theorem predict_only_engine_calls (E : Env) (self : Predictor)
    (data : list string) (tokenizer : Tokenizer)
    (label_map : Py.dict string) (batch_size : Z) (w : world) :
  exists evs : list event,
    trace (predict E self data tokenizer label_map batch_size w).2
    = trace w ++ evs
    /\ Forall (fun e => is_engine_call e = true) evs
    /\ stdout evs = [].
Proof.
  destruct (predict_world E self tokenizer label_map data batch_size w)
    as [bs ->].
  exists (concat (batch_events self tokenizer <$> bs)).
  split; [apply trace_after_batches|].
  split; [apply engine_calls_batches|].
  induction bs as [|b bs IH]; [done|]. simpl. exact IH.
Qed.

(** The outcome of [predict], labels or exception, does not depend on
    the tensors that earlier calls left in the handles of the engine
    nor on the trace so far: both input handles are overwritten before
    every run. *)
Theorem predict_result_independent (E : Env) (self : Predictor)
    (data : list string) (tokenizer : Tokenizer)
    (label_map : Py.dict string) (batch_size : Z) (w1 w2 : world) :
  (predict E self data tokenizer label_map batch_size w1).1
  = (predict E self data tokenizer label_map batch_size w2).1.
Proof.
  rewrite !predict_unfold.
  destruct (batches _ batch_size) as [e|bs]; [done|].
  apply predict_loop_result.
Qed.

Lemma decode_labels_in_map (E : Env) (label_map : Py.dict string)
    (logits : matrix) (labels : list string) (lbl : string) :
  decode E label_map logits = inr labels ->
  lbl ∈ labels -> lbl ∈ Py.values label_map.
Proof.
  intros Hd%decode_inr Hin.
  apply list_elem_of_lookup in Hin as [i Hi].
  destruct (Forall2_lookup_r _ _ _ _ _ Hd Hi) as (row & _ & Hrow).
  unfold row_label in Hrow.
  destruct (argmax (softmax E row)) as [e|n]; [done|]. simpl in Hrow.
  unfold Py.getitem_int in Hrow.
  destruct (Py.dict_lookup label_map (Z.of_nat n)) as [l|] eqn:Hl; [|done].
  injection Hrow as ->. clear -Hl. unfold Py.values.
  induction label_map as [|[k v] d IH]; [done|]. simpl in *.
  destruct (k =? Z.of_nat n).
  - injection Hl as ->. left.
  - right. by apply IH.
Qed.

(** Every label that [predict] returns is a value of the label map. *)
Theorem predict_labels_in_map (E : Env) (self : Predictor)
    (data : list string) (tokenizer : Tokenizer)
    (label_map : Py.dict string) (batch_size : Z) (w w' : world)
    (results : list string) :
  predict E self data tokenizer label_map batch_size w = (inr results, w') ->
  forall lbl : string, lbl ∈ results -> lbl ∈ Py.values label_map.
Proof.
  intros Hp lbl Hin.
  assert (Hr : (predict E self data tokenizer label_map batch_size w).1
               = inr results) by (by rewrite Hp).
  rewrite predict_unfold in Hr.
  destruct (batches _ batch_size) as [e|bs]; [done|].
  apply predict_loop_inr in Hr as (lss & Hall & ->). simpl in Hin.
  apply list_elem_of_In, in_concat in Hin
    as (ls & Hls%list_elem_of_In & Hlbl%list_elem_of_In).
  apply list_elem_of_lookup in Hls as [j Hj].
  destruct (Forall2_lookup_r _ _ _ _ _ Hall Hj) as (b & _ & Hb).
  by eapply decode_labels_in_map.
Qed.

(** An instance of [predict_labels_in_map]: three texts in batches of
    two. *)
Lemma predict_labels_in_map_witness :
  exists (results : list string) (w' : world),
    predict toy_env toy_predictor ["ab"; "c"; "defgh"] toy_tokenizer
      label_map 2 world0 = (inr results, w')
    /\ forall lbl : string, lbl ∈ results -> lbl ∈ Py.values label_map.
Proof.
  eexists _, _. split; [vm_compute; reflexivity|].
  eapply (predict_labels_in_map toy_env toy_predictor ["ab"; "c"; "defgh"]
            toy_tokenizer label_map 2 world0).
  vm_compute. reflexivity.
Defined.

(** With a batch size of 0 [predict] raises the [ValueError] of
    [range], and with a negative batch size it returns the empty list,
    whatever the texts; in both cases no batch is formed and the world
    is left as it was. *)
Theorem predict_nonpositive_batch_size (E : Env) (self : Predictor)
    (data : list string) (tokenizer : Tokenizer)
    (label_map : Py.dict string) (batch_size : Z) (w : world) :
  batch_size <= 0 ->
  predict E self data tokenizer label_map batch_size w
  = (if batch_size =? 0 then inl Py.ValueError else inr [], w).
Proof.
  intros Hk. rewrite predict_unfold.
  destruct (Z.eqb_spec batch_size 0) as [->|Hne].
  - by rewrite batches_zero.
  - by rewrite batches_negative by lia.
Qed.

(** An instance of [predict_nonpositive_batch_size]: the batch size -3. *)
Lemma predict_nonpositive_batch_size_witness :
  predict toy_env toy_predictor ["ab"; "c"; "defgh"] toy_tokenizer
    label_map (-3) world0 = (inr [], world0).
Proof.
  apply (predict_nonpositive_batch_size toy_env toy_predictor
           ["ab"; "c"; "defgh"] toy_tokenizer label_map (-3) world0).
  lia.
Defined.

(** For a batch size [k >= 1] and a label map that covers the decoded
    indices, [predict] makes exactly the four calls [copy_from_cpu] on
    handle 0, [copy_from_cpu] on handle 1, [run], [copy_to_cpu] for
    each batch, batch after batch: the engine runs ceil(n/k) times. *)
Theorem predict_engine_calls (E : Env) (self : Predictor)
    (data : list string) (tokenizer : Tokenizer)
    (label_map : Py.dict string) (k : Z) (w : world) :
  1 <= k ->
  labels_cover E self label_map ->
  trace (predict E self data tokenizer label_map k w).2
  = trace w ++
      concat (batch_events self tokenizer
                <$> example_batches self tokenizer data k)
  /\ Z.of_nat (length (List.filter is_run
        (concat (batch_events self tokenizer
                   <$> example_batches self tokenizer data k))))
     = (Z.of_nat (length data) + k - 1) / k.
Proof.
  intros Hk Hcover. split.
  - rewrite (predict_eq E self tokenizer label_map Hcover data k w Hk).
    cbv zeta. cbn [snd]. apply trace_after_batches.
  - rewrite count_runs_batches. unfold example_batches.
    rewrite length_fmap, length_seq.
    apply Z2Nat.id, Z.div_pos; lia.
Qed.

(** An instance of [predict_engine_calls]: three texts in batches of
    two make two runs. *)
Lemma predict_engine_calls_witness :
  Z.of_nat (length (List.filter is_run
     (concat (batch_events toy_predictor toy_tokenizer
                <$> example_batches toy_predictor toy_tokenizer
                      ["ab"; "c"; "defgh"] 2)))) = 2.
Proof.
  exact (proj2 (predict_engine_calls toy_env toy_predictor
                  ["ab"; "c"; "defgh"] toy_tokenizer label_map 2 world0
                  ltac:(lia) toy_labels_cover)).
Defined.

(** When the decoding of batch [j] is the first to fail, [predict]
    raises that error: the labels of the earlier batches are discarded,
    the engine has been run on the batches 0 to [j] and on no later
    one. *)
Theorem predict_fails_fast (E : Env) (self : Predictor)
    (data : list string) (tokenizer : Tokenizer)
    (label_map : Py.dict string) (k : Z) (w : world)
    (j : nat) (b : list (list Z * list Z)) (e : Py.exn) :
  1 <= k ->
  example_batches self tokenizer data k !! j = Some b ->
  (forall b', b' ∈ take j (example_batches self tokenizer data k) ->
     exists ls, decode E label_map (batch_logits self tokenizer b') = inr ls) ->
  decode E label_map (batch_logits self tokenizer b) = inl e ->
  predict E self data tokenizer label_map k w
  = (inl e,
     foldl (fun w b => after_batch self tokenizer b w) w
       (take (S j) (example_batches self tokenizer data k))).
Proof.
  intros Hk Hj Hbefore Hfail.
  rewrite predict_unfold, batches_example_batches by done.
  set (bs := example_batches self tokenizer data k) in *.
  rewrite <- (take_drop_middle bs j b Hj) at 1.
  rewrite for_in_app.
  rewrite (predict_loop_ok E self tokenizer label_map (take j bs)
             (batch_labels E self tokenizer label_map <$> take j bs)).
  - simpl. unfold mbind, M_bind. rewrite predict_batch_eq, Hfail.
    f_equal. rewrite (take_S_r _ _ _ Hj), foldl_app. done.
  - apply Forall2_fmap_r, Forall_Forall2_diag, Forall_forall.
    intros b' Hb'. destruct (Hbefore b' Hb') as [ls Hls].
    unfold batch_labels, compose. by rewrite Hls.
Qed.

(** An instance of [predict_fails_fast]: a label map without the key 0
    makes the first batch fail with [KeyError] on 0. *)
Lemma predict_fails_fast_witness :
  (predict toy_env toy_predictor ["ab"; "c"; "defgh"] toy_tokenizer
     [(1, "positive")] 2 world0).1
  = inl (Py.KeyError (Py.KInt 0)).
Proof.
  rewrite (predict_fails_fast toy_env toy_predictor ["ab"; "c"; "defgh"]
             toy_tokenizer [(1, "positive")] 2 world0 0
             [([1; 5; 5; 2], [0; 0; 0; 0]); ([1; 5; 2], [0; 0; 0])]
             (Py.KeyError (Py.KInt 0))).
  - reflexivity.
  - lia.
  - reflexivity.
  - intros b' Hb'. rewrite take_0 in Hb'. by apply elem_of_nil in Hb'.
  - reflexivity.
Defined.

(** ** The printing loop (lines 188-189) *)

Lemma getitem_list_out_of_range {A} (l : list A) (n : nat) :
  (length l <= n)%nat -> getitem_list l (Z.of_nat n) = inl Py.IndexError.
Proof.
  intros Hn. unfold getitem_list.
  assert (H1 : (Z.of_nat n <? 0) = false) by lia.
  assert (H2 : (Z.of_nat (length l) <=? Z.of_nat n) = true) by lia.
  rewrite H1. cbv zeta. rewrite H1, H2. done.
Qed.

Lemma print_loop_short (texts results : list string) (off : nat)
    (w : world) :
  (off <= length results < off + length texts)%nat ->
  for_in (imap (fun i text => (Z.of_nat (off + i), text)) texts)
    (fun (_ : ()) '(idx, text) =>
       label ← lift (getitem_list results idx);
       print (format_line text label)) () w
  = (inl Py.IndexError,
     {| in0 := in0 w; in1 := in1 w; out := out w;
        trace := trace w ++
          (Print <$> zip_with format_line texts (drop off results)) |}).
Proof.
  revert off w. induction texts as [|text texts IH]; intros off w Hlen.
  - simpl in Hlen. lia.
  - simpl in Hlen. simpl.
    unfold mbind at 1, M_bind at 1.
    unfold mbind at 1, M_bind at 1, lift at 1.
    rewrite Nat.add_0_r.
    destruct (decide (off = length results)) as [->|Hne].
    + rewrite getitem_list_out_of_range by lia.
      rewrite drop_all. simpl. rewrite app_nil_r. by destruct w.
    + destruct (lookup_lt_is_Some_2 results off ltac:(lia)) as [lbl Hlbl].
      rewrite (drop_S _ _ _ Hlbl). simpl.
      rewrite (getitem_list_nat _ _ _ Hlbl).
      unfold print, log at 1.
      erewrite (imap_ext _ (fun i text => (Z.of_nat (S off + i), text)));
        [|intros; simpl; f_equal; lia].
      rewrite IH by lia. simpl. by rewrite <- app_assoc.
Qed.

(** When [results] has fewer entries than there are texts, the printing
    loop prints the lines of the texts that have a label, in order, and
    then raises [IndexError] at the first text without one. *)
Theorem print_results_short (texts results : list string) (w : world) :
  (length results < length texts)%nat ->
  print_results texts results w
  = (inl Py.IndexError,
     {| in0 := in0 w; in1 := in1 w; out := out w;
        trace := trace w ++
          (Print <$> zip_with format_line
                       (take (length results) texts) results) |}).
Proof.
  intros Hlen. unfold print_results, enumerate.
  etransitivity;
    [exact (print_loop_short texts results 0 w ltac:(simpl; lia))|].
  by rewrite drop_0, zip_with_take_l.
Qed.

(** An instance of [print_results_short]: two texts and one label. *)
Lemma print_results_short_witness :
  print_results ["a"; "b"] ["positive"] world0
  = (inl Py.IndexError,
     {| in0 := []; in1 := []; out := [];
        trace := [Print (format_line "a" "positive")] |}).
Proof.
  apply (print_results_short ["a"; "b"] ["positive"] world0).
  simpl. lia.
Defined.

(** ** The command line, beyond the device *)

Lemma parse_args_inl (E : Env) (argv : Argv) (e : Py.exn) :
  parse_args E argv = inl e -> e = Py.SystemExit 2.
Proof.
  unfold parse_args.
  destruct (opt_model_file argv) as [m|]; simpl; [|by intros [= <-]].
  destruct (opt_params_file argv) as [p|]; simpl; [|by intros [= <-]].
  destruct (typed_int E 128 _) as [e1|msl] eqn:H1; simpl.
  { unfold typed_int in H1. destruct (opt_max_seq_length argv) as [s1|];
      [destruct (py_int E s1)|]; inversion H1. by intros [= <-]. }
  destruct (typed_int E 2 _) as [e2|bs] eqn:H2; simpl.
  { unfold typed_int in H2. destruct (opt_batch_size argv) as [s2|];
      [destruct (py_int E s2)|]; inversion H2. by intros [= <-]. }
  destruct (opt_device argv) as [v|]; simpl; [|done].
  destruct (bool_decide _); simpl; [done|by intros [= <-]].
Qed.

(** Whenever the parser refuses the command line, whether for a missing
    required flag, a value that is not an integer or a device outside
    the choices, the exception is the exit with status 2, and the
    script ends with it before any predictor is created, any call on
    the engine or any print. *)
Theorem script_usage_error (E : Env) (argv : Argv) (e : Py.exn)
    (w : world) :
  parse_args E argv = inl e ->
  e = Py.SystemExit 2 /\ script E argv w = (inl (Py.SystemExit 2), w).
Proof.
  intros Hp. pose proof (parse_args_inl E argv e Hp) as ->.
  split; [done|].
  unfold script, mbind at 1, M_bind at 1, lift. by rewrite Hp.
Qed.

(** An instance of [script_usage_error]: no [--params_file]. *)
Lemma script_usage_error_witness :
  script toy_env
    {| opt_model_file := Some "m.pdmodel"; opt_params_file := None;
       opt_max_seq_length := None; opt_batch_size := None;
       opt_device := None |} world0
  = (inl (Py.SystemExit 2), world0).
Proof.
  apply (script_usage_error toy_env
    {| opt_model_file := Some "m.pdmodel"; opt_params_file := None;
       opt_max_seq_length := None; opt_batch_size := None;
       opt_device := None |} (Py.SystemExit 2) world0).
  reflexivity.
Defined.

(** ** The predictor built from the command line (lines 93-116, 172) *)

(** For an accepted command line the configuration handed to the engine
    always selects a device: the GPU 0 with a pool of 100 MB for [gpu]
    and when [--device] is left out, no GPU for [cpu], the XPU with a
    workspace of 100 for [xpu]; the feed and fetch operators are
    switched off. *)
Theorem parsed_device_configured (E : Env) (argv : Argv)
    (args : Namespace) :
  parse_args E argv = inr args ->
  let config := make_config (args_model_file args) (args_params_file args)
                  (args_device args) in
  cfg_use_feed_fetch_ops config = false
  /\ cfg_device config <> DeviceUnset
  /\ cfg_device config =
       match opt_device argv with
       | None => UseGpu 100 0
       | Some v =>
           if String.eqb v "cpu" then GpuDisabled
           else if String.eqb v "xpu" then UseXpu 100
           else UseGpu 100 0
       end.
Proof.
  intros Hp config. split; [done|].
  apply parse_args_device in Hp as [Hd Hin].
  assert (Hcases : args_device args = "cpu" \/ args_device args = "gpu"
                   \/ args_device args = "xpu").
  { unfold device_choices in Hin. apply list_elem_of_In in Hin.
    simpl in Hin. intuition auto. }
  subst config. unfold make_config. simpl.
  destruct (opt_device argv) as [v|]; simpl in Hd; rewrite Hd in *.
  - destruct Hcases as [-> | [-> | ->]]; done.
  - done.
Qed.

(** An instance of [parsed_device_configured]: [--device xpu]. *)
Lemma parsed_device_configured_witness :
  cfg_device (make_config "m.pdmodel" "m.pdiparams" "xpu") = UseXpu 100.
Proof.
  exact (proj2 (proj2 (parsed_device_configured toy_env
    {| opt_model_file := Some "m.pdmodel";
       opt_params_file := Some "m.pdiparams";
       opt_max_seq_length := None; opt_batch_size := None;
       opt_device := Some "xpu" |}
    {| args_model_file := "m.pdmodel"; args_params_file := "m.pdiparams";
       args_max_seq_length := 128; args_batch_size := 2;
       args_device := "xpu" |} eq_refl))).
Defined.

(** ** The script as a whole (lines 170-189) *)

Lemma script_unfold (E : Env) (argv : Argv) (args : Namespace) (w : world) :
  parse_args E argv = inr args ->
  script E argv w
  = match predict E
            {| self_max_seq_length := args_max_seq_length args;
               self_predictor :=
                 create_predictor E
                   (make_config (args_model_file args)
                      (args_params_file args) (args_device args)) |}
            data (from_pretrained E "ernie-tiny") label_map
            (args_batch_size args)
            {| in0 := in0 w; in1 := in1 w; out := out w;
               trace := trace w ++
                 [CreatePredictor
                    (make_config (args_model_file args)
                       (args_params_file args) (args_device args))] |}
    with
    | (inl e, w2) => (inl e, w2)
    | (inr results, w2) => print_results data results w2
    end.
Proof.
  intros Hp. unfold script, mbind at 1, M_bind at 1, lift. rewrite Hp.
  unfold mbind at 1, M_bind at 1. rewrite Predictor_init_eq.
  unfold mbind at 1, M_bind at 1. done.
Qed.

(** For an accepted command line with a batch size of at least 1, when
    the network of the predictor built from that command line returns
    one row of scores per example and the label map covers the indices
    decoded from them, the trace of the script is: the creation of one
    predictor with the configuration of the command line, then the four
    engine calls of each batch, batch after batch, then the printed
    lines; no call on the engine follows a print. *)
Theorem script_trace (E : Env) (argv : Argv) (args : Namespace)
    (w : world) :
  parse_args E argv = inr args ->
  1 <= args_batch_size args ->
  row_per_example (script_predictor E args) ->
  labels_cover E (script_predictor E args) label_map ->
  let config := make_config (args_model_file args) (args_params_file args)
                  (args_device args) in
  let self := script_predictor E args in
  let tokenizer := from_pretrained E "ernie-tiny" in
  exists lines : list string,
    length lines = length data
    /\ trace (script E argv w).2
       = trace w ++ [CreatePredictor config]
         ++ concat (batch_events self tokenizer
                      <$> example_batches self tokenizer data
                            (args_batch_size args))
         ++ (Print <$> lines).
Proof.
  intros Hp Hk Hrows Hcover config self tokenizer.
  fold self in Hrows, Hcover.
  rewrite (script_unfold E argv args w Hp).
  fold (script_predictor E args). fold config self tokenizer.
  rewrite (predict_eq E self tokenizer label_map Hcover data _ _ Hk).
  cbv zeta. fold (example_batches self tokenizer data (args_batch_size args)).
  pose proof (length_predict_results E self tokenizer label_map Hrows
                Hcover data _ Hk) as Hlen.
  fold (example_batches self tokenizer data (args_batch_size args)) in Hlen.
  rewrite print_results_ok by done.
  eexists. split; [|cbn [snd trace]; rewrite trace_after_batches;
                    cbn [trace]; by rewrite <- !app_assoc].
  rewrite length_zip_with, Hlen. apply Nat.min_id.
Qed.

(** An instance of [script_trace]: the default batch size. *)
Lemma script_trace_witness :
  exists lines : list string,
    length lines = 3%nat
    /\ exists evs : list event,
         trace (script toy_env
           {| opt_model_file := Some "m.pdmodel";
              opt_params_file := Some "m.pdiparams";
              opt_max_seq_length := None; opt_batch_size := None;
              opt_device := None |} world0).2
         = evs ++ (Print <$> lines).
Proof.
  destruct (script_trace toy_env
      {| opt_model_file := Some "m.pdmodel";
         opt_params_file := Some "m.pdiparams";
         opt_max_seq_length := None; opt_batch_size := None;
         opt_device := None |}
      {| args_model_file := "m.pdmodel"; args_params_file := "m.pdiparams";
         args_max_seq_length := 128; args_batch_size := 2;
         args_device := "gpu" |}
      world0 eq_refl ltac:(simpl; lia)
      (proj1 (toy_engine_ok _ _)) (proj2 (toy_engine_ok _ _)))
    as (lines & Hlen & Htrace).
  exists lines. split; [exact Hlen|].
  eexists. rewrite Htrace. rewrite !app_assoc. reflexivity.
Defined.

(** When [predict] raises, the script ends with the same exception and
    has printed nothing: there is no partial output. *)
Theorem script_no_output_on_error (E : Env) (argv : Argv)
    (args : Namespace) (w : world) (e : Py.exn) :
  parse_args E argv = inr args ->
  let config := make_config (args_model_file args) (args_params_file args)
                  (args_device args) in
  let self := {| self_max_seq_length := args_max_seq_length args;
                 self_predictor := create_predictor E config |} in
  (predict E self data (from_pretrained E "ernie-tiny") label_map
     (args_batch_size args)
     {| in0 := in0 w; in1 := in1 w; out := out w;
        trace := trace w ++ [CreatePredictor config] |}).1 = inl e ->
  (script E argv w).1 = inl e
  /\ stdout (trace (script E argv w).2) = stdout (trace w).
Proof.
  intros Hp config self Herr.
  rewrite (script_unfold E argv args w Hp). fold config self.
  destruct (predict_world E self (from_pretrained E "ernie-tiny") label_map
              data (args_batch_size args)
              {| in0 := in0 w; in1 := in1 w; out := out w;
                 trace := trace w ++ [CreatePredictor config] |})
    as [bs Hw].
  destruct (predict E self data _ label_map _ _) as [[e'|results] w2];
    simpl in Herr, Hw; [|done].
  injection Herr as ->. split; [done|]. simpl. rewrite Hw.
  rewrite stdout_after_batches. simpl. rewrite stdout_app. simpl.
  apply app_nil_r.
Qed.

(** An instance of [script_no_output_on_error]: [--batch_size 0]. *)
Lemma script_no_output_on_error_witness :
  (script toy_env
     {| opt_model_file := Some "m.pdmodel";
        opt_params_file := Some "m.pdiparams";
        opt_max_seq_length := None; opt_batch_size := Some "0";
        opt_device := None |} world0).1 = inl Py.ValueError.
Proof.
  exact (proj1 (script_no_output_on_error toy_env
    {| opt_model_file := Some "m.pdmodel";
       opt_params_file := Some "m.pdiparams";
       opt_max_seq_length := None; opt_batch_size := Some "0";
       opt_device := None |}
    {| args_model_file := "m.pdmodel"; args_params_file := "m.pdiparams";
       args_max_seq_length := 128; args_batch_size := 0;
       args_device := "gpu" |} world0 Py.ValueError eq_refl eq_refl)).
Defined.

Lemma print_results_no_label (texts : list string) (w : world) :
  texts <> [] ->
  print_results texts [] w
  = (inl Py.IndexError,
     {| in0 := in0 w; in1 := in1 w; out := out w;
        trace := trace w ++ [] |}).
Proof.
  intros Hne.
  etransitivity; [apply (print_loop_short texts [] 0 w)|].
  - destruct texts; [done|]. simpl. lia.
  - by rewrite drop_0, zip_with_nil_r.
Qed.

(** For an accepted command line whose batch size is not positive the
    script creates the predictor and then fails without a call on the
    engine and without a print: with the [ValueError] of [range] for
    the batch size 0, and for a negative batch size with the
    [IndexError] of [results[0]], [predict] having returned no label. *)
Theorem script_nonpositive_batch_size (E : Env) (argv : Argv)
    (args : Namespace) (w : world) :
  parse_args E argv = inr args ->
  args_batch_size args <= 0 ->
  (script E argv w).1
  = inl (if args_batch_size args =? 0 then Py.ValueError
         else Py.IndexError)
  /\ trace (script E argv w).2
     = trace w ++
         [CreatePredictor
            (make_config (args_model_file args) (args_params_file args)
               (args_device args))].
Proof.
  intros Hp Hk. rewrite (script_unfold E argv args w Hp).
  rewrite predict_unfold.
  destruct (Z.eqb_spec (args_batch_size args) 0) as [->|Hne].
  - by rewrite batches_zero.
  - rewrite batches_negative by lia.
    cbv beta iota delta [for_in mret M_ret].
    rewrite print_results_no_label by done. simpl. split; [done|].
    by rewrite app_nil_r.
Qed.

(** An instance of [script_nonpositive_batch_size]: [--batch_size -1]. *)
Lemma script_nonpositive_batch_size_witness :
  (script toy_env
     {| opt_model_file := Some "m.pdmodel";
        opt_params_file := Some "m.pdiparams";
        opt_max_seq_length := None; opt_batch_size := Some "-1";
        opt_device := None |} world0).1 = inl Py.IndexError.
Proof.
  exact (proj1 (script_nonpositive_batch_size toy_env
    {| opt_model_file := Some "m.pdmodel";
       opt_params_file := Some "m.pdiparams";
       opt_max_seq_length := None; opt_batch_size := Some "-1";
       opt_device := None |}
    {| args_model_file := "m.pdmodel"; args_params_file := "m.pdiparams";
       args_max_seq_length := 128; args_batch_size := -1;
       args_device := "gpu" |} world0 eq_refl ltac:(simpl; lia))).
Defined.

(** ** Further facts on batching and decoding *)

(** A batch size that is at least the number of examples puts all the
    examples, when there are any, in one batch. *)
Theorem batches_single {A} (examples : list A) (k : Z) :
  (1 <= length examples)%nat ->
  Z.of_nat (length examples) <= k ->
  batches examples k = inr [examples].
Proof.
  intros Hn Hk. rewrite batches_chunks by lia.
  assert ((Z.of_nat (length examples) + k - 1) / k = 1) as ->.
  { symmetry. apply (Z.div_unique_pos _ _ 1 (Z.of_nat (length examples) - 1));
      lia. }
  simpl. unfold chunk_at. simpl. rewrite drop_0, take_ge by lia. done.
Qed.

(** An instance of [batches_single]: two examples, batch size five. *)
Lemma batches_single_witness : batches [7; 8] 5 = inr [[7; 8]].
Proof. apply batches_single; simpl; lia. Defined.

(** An instance of [decode_first_maximum]: a tie between the two
    columns decodes to the label of column 0. *)
Lemma decode_first_maximum_witness :
  Forall2 (fun row lbl =>
    exists (i : nat) (v : Q),
      softmax toy_env row !! i = Some v
      /\ (forall (j : nat) x, softmax toy_env row !! j = Some x -> (x <= v)%Q)
      /\ (forall (j : nat) x, (j < i)%nat ->
            softmax toy_env row !! j = Some x -> (x < v)%Q)
      /\ Py.dict_lookup label_map (Z.of_nat i) = Some lbl)
    [[1 # 2; 1 # 2]; [1 # 4; 3 # 4]] ["negative"; "positive"].
Proof.
  exact (decode_first_maximum toy_env label_map
           [[1 # 2; 1 # 2]; [1 # 4; 3 # 4]] ["negative"; "positive"]
           eq_refl).
Defined.
